(** * Store-credit reservation / settlement protocol

    A shallow embedding of the Express server [src/index.js]
    (endpoints apply-credits, cancel-credits, order-webhook and
    cleanup-pending) and of the standalone serverless handler
    [src/api/cancel-credits.js], over an explicit store holding the two
    Supabase tables of [supabase-schema.sql] and the Shopify price rules.

    Conventions of the embedding
    - money is an integer number of cents ([Z]): the amount of a request is
      taken to have at most two decimals, as the [DECIMAL(10, 2)] columns
      store it; a number that a handler computes and sends back is the
      binary64 number that JavaScript computes ([spec_float]);
    - instants are milliseconds since the epoch ([Z]); the local clock of
      the server is given by [LocalTime] and [UTC] of its platform;
    - a request field that is absent, [null] or [undefined] is [None];
    - the primary key of a [credit_transactions] row is its position in the
      table (rows are appended and never deleted by any handler);
    - the database answers every call; the insert of an amount that does not
      fit [DECIMAL(10, 2)] is refused, and balances are taken to stay within
      their column; the Shopify calls may fail, and what they answer is
      given by the [fetch_outcome]s of the request's environment;
    - the orders/paid payload always carries [id] and [order_number];
    - a handler as a function ([apply_credits], [order_webhook], ...) is the
      handler run from its first to its last line with no other request in
      between; [task] and [interleave] describe requests that overlap. *)

From stdpp Require Import base option list gmap strings pretty.
From Stdlib Require Import ZArith String Lia.
From Corelib Require SpecFloat.

Local Open Scope string_scope.
Local Open Scope Z_scope.

(** ** The two tables of supabase-schema.sql *)

Inductive tx_status := pending | completed | cancelled.
Inductive tx_type := credit | debit.

Record profile := mk_profile {
  email : string;
  credits : Z
}.

Record transaction := mk_transaction {
  user_id : string;
  amount : Z;
  type : tx_type;
  status : tx_status;
  discount_code : option string;
  price_rule_id : option string;
  order_id : option string;
  order_number : option string;
  description : option string;
  created_at : Z;
  completed_at : option Z;
  cancelled_at : option Z
}.

#[global] Instance tx_status_eq_dec : EqDecision tx_status.
Proof. solve_decision. Defined.

(** ** The Shopify side: price rules and their discount codes *)

Record price_rule := mk_price_rule {
  pr_id : N;
  pr_title : string;
  pr_value : string;
  pr_codes : list string
}.

Record shopify_store := mk_shopify {
  next_price_rule_id : N;
  price_rules : list price_rule
}.

(** ** The whole store *)

Record world := mk_world {
  profiles : gmap string profile;
  credit_transactions : list transaction;
  shopify : shopify_store
}.

(** ** Requests, responses, environment *)

Inductive fetch_outcome :=
| NetworkFailure   (* fetch itself rejects *)
| HttpNotOk        (* a response with [ok] false *)
| HttpOk.          (* a response with [ok] true; Shopify did what was asked *)

Inductive json_body :=
| BError (error : string)
| BFailure (error message : string)
| BInsufficient (error : string) (available requested : Z)
| BApplied (discountCode : string) (discountAmount newBalance : Z) (priceRuleId : N)
| BCancelled (restoredAmount newBalance : Z)
| BUnauthorized (hmac_present : bool)
| BMessage (message : string)
| BFinalized (message : string) (orderId : Z)
| BCleanup (message : string) (transactions : nat)
| BEmpty
| BDebited (discountCode : string) (discountAmount : Z)
    (newBalance : SpecFloat.spec_float) (priceRuleId : N)
| BRestored (restoredAmount : Z) (newBalance : SpecFloat.spec_float).

Record response := mk_response {
  http_status : nat;
  body : json_body
}.

(** JavaScript truthiness of the request fields that the handlers test. *)
Definition truthy_number (v : option Z) : bool :=
  match v with Some n => negb (n =? 0) | None => false end.

Definition truthy_string (v : option string) : bool :=
  match v with Some s => negb (String.eqb s "") | None => false end.

Definition truthy_array {A} (v : option (list A)) : bool :=
  match v with Some _ => true | None => false end.

(** How template literals print an amount: the shortest decimal, as
    [Number.prototype.toString] does for a value with two decimals. *)
Definition show_amount (c : Z) : string :=
  let a := Z.abs c in
  let q := a / 100 in
  let r := a mod 100 in
  (if c <? 0 then "-" else "") +:+ pretty q +:+
  (if r =? 0 then ""
   else "." +:+ (if r mod 10 =? 0 then pretty (r / 10)
                 else (if r <? 10 then "0" else "") +:+ pretty r)).

(** A decimal of at most 15 significant digits comes back digit for digit
    from the double that holds it; a longer one is printed from the nearest
    double, in exponent notation from 1e21 on, and [long] stands for that
    text. *)
Definition number_text (long : string) (c : Z) : string :=
  if Z.abs c <? 10 ^ 15 then show_amount c else long.

(** What fits a [DECIMAL(10, 2)] column: less than 10^8 in absolute value. *)
Definition fits_decimal_10_2 (c : Z) : bool := Z.abs c <? 10 ^ 10.

(** binary64 arithmetic, as JavaScript does it on the numbers it read from
    the database: [to_double c] is the double nearest to [c / 100], for
    every [c] that a [DECIMAL(10, 2)] column can hold. *)
Definition double_of_Z (z : Z) : SpecFloat.spec_float :=
  SpecFloat.binary_normalize 53 1024 z 0 false.

Definition to_double (c : Z) : SpecFloat.spec_float :=
  SpecFloat.SFdiv 53 1024 (double_of_Z c) (double_of_Z 100).

Definition double_add : SpecFloat.spec_float → SpecFloat.spec_float → SpecFloat.spec_float :=
  SpecFloat.SFadd 53 1024.

Definition double_sub : SpecFloat.spec_float → SpecFloat.spec_float → SpecFloat.spec_float :=
  SpecFloat.SFsub 53 1024.

(** ** Queries on credit_transactions *)

(** [select_from P i rows]: the rows satisfying the filters [P], each with
    its primary key, for a table whose first row has key [i]. *)
Fixpoint select_from (P : transaction → bool) (i : nat) (rows : list transaction)
  : list (nat * transaction) :=
  match rows with
  | [] => []
  | t :: rest => (if P t then [(i, t)] else []) ++ select_from P (S i) rest
  end.

Definition select_rows (P : transaction → bool) (rows : list transaction) :=
  select_from P 0 rows.

(** [.single()]: the row when exactly one matches, no data otherwise. *)
Definition single {A} (l : list A) : option A :=
  match l with
  | [x] => Some x
  | _ => None
  end.

Definition is_pending (t : transaction) : bool := bool_decide (status t = pending).

Definition has_code (c : string) (t : transaction) : bool :=
  bool_decide (discount_code t = Some c).

Definition owned_by (u : string) (t : transaction) : bool :=
  String.eqb (user_id t) u.

(** ** POST /api/apply-credits  (src/index.js, lines 44-165) *)

Record cart_item := mk_cart_item { variant_id : Z; quantity : Z }.

Record apply_request := mk_apply_request {
  creditAmount : option Z;
  userId : option string;
  cartItems : option (list cart_item)
}.

Record apply_env := mk_apply_env {
  apply_now : Z;                      (* Date.now(), and NOW() of the insert *)
  random_suffix : string;             (* Math.random().toString(36).substring(7) *)
  price_rule_fetch : fetch_outcome;   (* POST price_rules.json *)
  discount_code_fetch : fetch_outcome; (* POST price_rules/<id>/discount_codes.json *)
  long_amount_text : string           (* `${creditAmount}` beyond 15 digits *)
}.

Definition amount_text (e : apply_env) (amt : Z) : string :=
  number_text (long_amount_text e) amt.

Definition make_discount_code (e : apply_env) : string :=
  "CREDIT-" +:+ pretty (apply_now e) +:+ "-" +:+ random_suffix e.

Definition create_price_rule (amount : string) (s : shopify_store)
  : N * shopify_store :=
  let id := next_price_rule_id s in
  (id, {| next_price_rule_id := N.succ id;
          price_rules := price_rules s ++
            [ {| pr_id := id;
                 pr_title := "Store Credit - " +:+ amount;
                 pr_value := "-" +:+ amount;
                 pr_codes := [] |} ] |}).

Definition add_code (id : N) (c : string) (r : price_rule) : price_rule :=
  if N.eqb (pr_id r) id
  then {| pr_id := pr_id r; pr_title := pr_title r; pr_value := pr_value r;
          pr_codes := pr_codes r ++ [c] |}
  else r.

Definition create_discount_code (id : N) (c : string) (s : shopify_store)
  : shopify_store :=
  {| next_price_rule_id := next_price_rule_id s;
     price_rules := add_code id c <$> price_rules s |}.

Definition with_shopify (w : world) (s : shopify_store) : world :=
  {| profiles := profiles w;
     credit_transactions := credit_transactions w;
     shopify := s |}.

Definition with_transactions (w : world) (rows : list transaction) : world :=
  {| profiles := profiles w;
     credit_transactions := rows;
     shopify := shopify w |}.

Definition with_profiles (w : world) (ps : gmap string profile) : world :=
  {| profiles := ps;
     credit_transactions := credit_transactions w;
     shopify := shopify w |}.

Definition reserved_row (e : apply_env) (uid : string) (amt : Z) (c : string) (id : N)
  : transaction :=
  {| user_id := uid;
     amount := amt;
     type := debit;
     status := pending;
     discount_code := Some c;
     price_rule_id := Some (pretty id);
     order_id := None;
     order_number := None;
     description := Some ("Reserved $" +:+ amount_text e amt +:+ " store credit");
     created_at := apply_now e;
     completed_at := None;
     cancelled_at := None |}.

(** The insert: the row is added unless its amount overflows the column.
    The handlers await the insert and never look at what it answers. *)
Definition insert_transaction (t : transaction) (w : world) : world :=
  if fits_decimal_10_2 (amount t)
  then with_transactions w (credit_transactions w ++ [t])
  else w.

Definition apply_failed (message : string) : response :=
  mk_response 500 (BFailure "Failed to apply credits" message).

Definition apply_credits (e : apply_env) (req : apply_request) (w : world)
  : response * world :=
  if negb (truthy_number (creditAmount req)) || negb (truthy_string (userId req))
     || negb (truthy_array (cartItems req))
  then (mk_response 400
          (BError "Missing required fields: creditAmount, userId, cartItems"), w)
  else
    match creditAmount req, userId req with
    | Some amt, Some uid =>
      match profiles w !! uid with
      | None => (mk_response 404 (BError "User not found"), w)
      | Some p =>
        if credits p <? amt
        then (mk_response 400 (BInsufficient "Insufficient credits" (credits p) amt), w)
        else
          let c := make_discount_code e in
          match price_rule_fetch e with
          | NetworkFailure => (apply_failed "fetch failed", w)
          | HttpNotOk => (apply_failed "Failed to create discount in Shopify", w)
          | HttpOk =>
            let '(id, s1) := create_price_rule (amount_text e amt) (shopify w) in
            let w1 := with_shopify w s1 in
            match discount_code_fetch e with
            | NetworkFailure => (apply_failed "fetch failed", w1)
            | HttpNotOk => (apply_failed "Failed to create discount code", w1)
            | HttpOk =>
              let w2 := with_shopify w1 (create_discount_code id c s1) in
              let w3 := insert_transaction (reserved_row e uid amt c id) w2 in
              (mk_response 200 (BApplied c amt (credits p) id), w3)
            end
          end
      end
    | _, _ => (mk_response 400
                 (BError "Missing required fields: creditAmount, userId, cartItems"), w)
    end.

(** ** POST /api/cancel-credits  (src/index.js, lines 170-236) *)

Record cancel_request := mk_cancel_request {
  cancel_userId : option string;
  cancel_discountCode : option string;
  cancel_priceRuleId : option N
}.

Record cancel_env := mk_cancel_env {
  cancel_now : Z;                 (* new Date() *)
  delete_fetch : fetch_outcome    (* DELETE price_rules/<id>.json *)
}.

Definition truthy_id (v : option N) : bool :=
  match v with Some n => negb (N.eqb n 0) | None => false end.

Definition cancel_row (now : Z) (t : transaction) : transaction :=
  {| user_id := user_id t; amount := amount t; type := type t;
     status := cancelled;
     discount_code := discount_code t; price_rule_id := price_rule_id t;
     order_id := order_id t; order_number := order_number t;
     description := description t; created_at := created_at t;
     completed_at := completed_at t;
     cancelled_at := Some now |}.

Definition delete_price_rule (id : N) (s : shopify_store) : shopify_store :=
  {| next_price_rule_id := next_price_rule_id s;
     price_rules := List.filter (λ r, negb (N.eqb (pr_id r) id)) (price_rules s) |}.

(** The optional clean-up: the DELETE is sent when [priceRuleId] is truthy;
    a rejected fetch is caught and logged, and the answer is not looked at. *)
Definition cleanup_price_rule (o : fetch_outcome) (rule : option N) (s : shopify_store)
  : shopify_store :=
  if truthy_id rule then
    match o, rule with
    | HttpOk, Some id => delete_price_rule id s
    | _, _ => s
    end
  else s.

(** Reading an identifier: its value when a declaration is in scope, a
    ReferenceError otherwise. *)
Definition read_identifier (scope : list (string * Z)) (x : string) : option Z :=
  snd <$> List.find (λ b, String.eqb (fst b) x) scope.

(** The numeric bindings in scope where the handler of index.js builds its
    success response (lines 223-227). The handler declares [userId],
    [discountCode], [priceRuleId], [supabase], [transaction] and [findError],
    none of them a number; [restoredBalance], which the object literal reads,
    is declared in src/api/cancel-credits.js only. *)
Definition index_cancel_scope : list (string * Z) := [].

Definition cancel_failed (message : string) : response :=
  mk_response 500 (BFailure "Failed to cancel credits" message).

Definition cancel_credits (e : cancel_env) (req : cancel_request) (w : world)
  : response * world :=
  if negb (truthy_string (cancel_userId req))
     || negb (truthy_string (cancel_discountCode req))
  then (mk_response 400 (BError "Missing userId or discountCode"), w)
  else
    match cancel_userId req, cancel_discountCode req with
    | Some uid, Some c =>
      match single (select_rows (λ t, owned_by uid t && has_code c t && is_pending t)
                      (credit_transactions w)) with
      | None => (mk_response 404 (BError "Transaction not found"), w)
      | Some (i, t) =>
        let w1 := with_transactions w
                    (alter (cancel_row (cancel_now e)) i (credit_transactions w)) in
        let w2 := with_shopify w1
                    (cleanup_price_rule (delete_fetch e) (cancel_priceRuleId req)
                       (shopify w1)) in
        match read_identifier index_cancel_scope "restoredBalance" with
        | Some restoredBalance =>
          (mk_response 200 (BCancelled (amount t) restoredBalance), w2)
        | None => (cancel_failed "restoredBalance is not defined", w2)
        end
      end
    | _, _ => (mk_response 400 (BError "Missing userId or discountCode"), w)
    end.

(** ** POST /api/order-webhook  (src/index.js, lines 241-336) *)

Record discount_entry := mk_discount_entry {
  dc_code : option string;
  dc_amount : string
}.

Record order := mk_order {
  o_id : Z;
  o_order_number : Z;
  o_discount_codes : option (list discount_entry)
}.

Record webhook_request := mk_webhook_request {
  hmac_header : option string;   (* req.headers['x-shopify-hmac-sha256'] *)
  order_body : order             (* req.body *)
}.

(** What the handler takes from its platform: the configured secret, Node's
    [crypto.createHmac('sha256', key).update(data).digest('base64')],
    [JSON.stringify], and the time zone of the server as the two conversions
    LocalTime(t) and UTC(t) that ECMAScript's Date methods are defined by. *)
Class Platform := {
  SHOPIFY_WEBHOOK_SECRET : string;
  hmac_sha256_base64 : string → string → string;
  JSON_stringify : order → string;
  LocalTime : Z → Z;   (* the local clock reading at an instant *)
  UTC : Z → Z          (* the instant of a local clock reading *)
}.

Definition is_credit_discount (dc : discount_entry) : bool :=
  match dc_code dc with
  | Some c => negb (String.eqb c "") && String.prefix "CREDIT-" c
  | None => false
  end.

Definition find_credit_discount (o : order) : option string :=
  match List.find is_credit_discount (default [] (o_discount_codes o)) with
  | Some dc => dc_code dc
  | None => None
  end.

Definition complete_row (now : Z) (o : order) (t : transaction) : transaction :=
  {| user_id := user_id t; amount := amount t; type := type t;
     status := completed;
     discount_code := discount_code t; price_rule_id := price_rule_id t;
     order_id := Some (pretty (o_id o));
     order_number := Some (pretty (o_order_number o));
     description := description t; created_at := created_at t;
     completed_at := Some now;
     cancelled_at := cancelled_at t |}.

Definition debit_profile (uid : string) (amt : Z) (ps : gmap string profile)
  : gmap string profile :=
  match ps !! uid with
  | Some p => <[uid := {| email := email p; credits := credits p - amt |}]> ps
  | None => ps
  end.

Definition compute_hash `{Platform} (o : order) : string :=
  hmac_sha256_base64 SHOPIFY_WEBHOOK_SECRET (JSON_stringify o).

Definition order_webhook `{Platform} (now : Z) (req : webhook_request) (w : world)
  : response * world :=
  if negb (bool_decide (Some (compute_hash (order_body req)) = hmac_header req))
  then (mk_response 401 (BUnauthorized (truthy_string (hmac_header req))), w)
  else
    match find_credit_discount (order_body req) with
    | None => (mk_response 200 (BMessage "No credits used"), w)
    | Some c =>
      match single (select_rows (λ t, has_code c t && is_pending t)
                      (credit_transactions w)) with
      | None => (mk_response 200 (BMessage "Transaction already processed"), w)
      | Some (i, t) =>
        let w1 := with_profiles w (debit_profile (user_id t) (amount t) (profiles w)) in
        let w2 := with_transactions w1
                    (alter (complete_row now (order_body req)) i
                       (credit_transactions w1)) in
        (mk_response 200
           (BFinalized "Credits finalized and deducted" (o_id (order_body req))), w2)
      end
    end.

(** ** POST /api/cleanup-pending  (src/index.js, lines 341-388) *)

Definition twenty_four_hours : Z := 24 * 60 * 60 * 1000.

(** [d = new Date(); d.setHours(d.getHours() - 24)]: the local clock reading
    of [now] less 24 hours, taken back to an instant. *)
Definition twentyFourHoursAgo `{Platform} (now : Z) : Z :=
  UTC (LocalTime now - twenty_four_hours).

Definition is_old_pending (cutoff : Z) (t : transaction) : bool :=
  is_pending t && (created_at t <? cutoff).

Definition cleanup_pending `{Platform} (now : Z) (w : world) : response * world :=
  let cutoff := twentyFourHoursAgo now in
  let oldTransactions :=
    select_rows (is_old_pending cutoff) (credit_transactions w) in
  if (0 <? List.length oldTransactions)%nat
  then
    let rows := (λ t, if is_old_pending cutoff t
                      then cancel_row now t else t) <$> credit_transactions w in
    (mk_response 200
       (BCleanup ("Cancelled " +:+ pretty (List.length oldTransactions) +:+
                  " abandoned reservations") (List.length oldTransactions)),
     with_transactions w rows)
  else
    (mk_response 200 (BCleanup "No old pending transactions to clean up" 0), w).

(** ** The standalone handler  (src/api/cancel-credits.js) *)

Inductive http_method := GET | POST | OPTIONS | PUT | DELETE.

Definition credit_profile (uid : string) (restoredBalance : Z) (ps : gmap string profile)
  : gmap string profile :=
  alter (λ p, {| email := email p; credits := restoredBalance |}) uid ps.

(** [restoredBalance] is a sum of two doubles; it is sent back as it is and
    written to the [credits] column, which rounds it to two decimals: within
    the range of the column that is the exact sum. *)
Definition api_cancel_credits (e : cancel_env) (m : http_method) (req : cancel_request)
  (w : world) : response * world :=
  match m with
  | OPTIONS => (mk_response 200 BEmpty, w)
  | POST =>
    if negb (truthy_string (cancel_userId req))
       || negb (truthy_string (cancel_discountCode req))
    then (mk_response 400 (BError "Missing userId or discountCode"), w)
    else
      match cancel_userId req, cancel_discountCode req with
      | Some uid, Some c =>
        match single (select_rows (λ t, owned_by uid t && has_code c t && is_pending t)
                        (credit_transactions w)) with
        | None => (mk_response 404 (BError "Transaction not found"), w)
        | Some (i, t) =>
          match profiles w !! uid with
          | None => (cancel_failed "Failed to fetch user profile", w)
          | Some p =>
            let restoredBalance := credits p + amount t in
            let w1 := with_profiles w (credit_profile uid restoredBalance (profiles w)) in
            let w2 := with_transactions w1
                        (alter (cancel_row (cancel_now e)) i (credit_transactions w1)) in
            let w3 := with_shopify w2
                        (cleanup_price_rule (delete_fetch e) (cancel_priceRuleId req)
                           (shopify w2)) in
            (mk_response 200
               (BRestored (amount t)
                  (double_add (to_double (credits p)) (to_double (amount t)))), w3)
          end
        end
      | _, _ => (mk_response 400 (BError "Missing userId or discountCode"), w)
      end
  | _ => (mk_response 405 (BError "Method not allowed"), w)
  end.

(** ** Sequences of operations on the server of index.js *)

Inductive op :=
| Reserve (e : apply_env) (req : apply_request)
| Settle (now : Z) (req : webhook_request)
| Cancel (e : cancel_env) (req : cancel_request)
| Sweep (now : Z).

Definition step `{Platform} (o : op) (w : world) : response * world :=
  match o with
  | Reserve e req => apply_credits e req w
  | Settle now req => order_webhook now req w
  | Cancel e req => cancel_credits e req w
  | Sweep now => cleanup_pending now w
  end.

Fixpoint run `{Platform} (ops : list op) (w : world) : world :=
  match ops with
  | [] => w
  | o :: rest => run rest (snd (step o w))
  end.

(** GetBalance of the ledger. *)
Definition GetBalance (w : world) (uid : string) : option Z :=
  credits <$> profiles w !! uid.

Definition status_at (w : world) (i : nat) : option tx_status :=
  status <$> credit_transactions w !! i.

(** Whether the state of an existing reservation differs between two stores. *)
Definition state_changed (i : nat) (w w' : world) : bool :=
  match status_at w i, status_at w' i with
  | Some s, Some s' => negb (bool_decide (s = s'))
  | _, _ => false
  end.

(** How many times the state of reservation [i] changes along a run. *)
Fixpoint transitions `{Platform} (i : nat) (ops : list op) (w : world) : nat :=
  match ops with
  | [] => 0
  | o :: rest =>
    let w' := snd (step o w) in
    ((if state_changed i w w' then 1 else 0) + transitions i rest w')%nat
  end.

(** What one operation may do to an existing row. *)
Inductive row_evolves (t : transaction) : transaction → Prop :=
| row_kept : row_evolves t t
| row_completed now o : status t = pending → row_evolves t (complete_row now o t)
| row_cancelled now : status t = pending → row_evolves t (cancel_row now t).



(** The names of the specification for the outcomes of the handlers. *)
Definition InsufficientBalance (r : response) : Prop :=
  http_status r = 400%nat ∧
  ∃ a b, body r = BInsufficient "Insufficient credits" a b.

Definition NotFound (r : response) : Prop :=
  r = mk_response 404 (BError "Transaction not found").

Definition AlreadyProcessed (r : response) : Prop :=
  r = mk_response 200 (BMessage "Transaction already processed").

Definition ValidationError (r : response) : Prop :=
  http_status r = 400%nat ∧ ∃ m, body r = BError m.

(** ** Vocabulary of the properties *)

(** Row [i] is the one and only row that the filters [P] let through. *)
Definition only_match (P : transaction → bool) (rows : list transaction)
  (i : nat) (t : transaction) : Prop :=
  rows !! i = Some t ∧ P t = true ∧
  ∀ j u, rows !! j = Some u → P u = true → j = i.

(** Price rules in Shopify that no reservation row refers to. *)
Definition has_reservation (w : world) (r : price_rule) : bool :=
  existsb (λ t, bool_decide (price_rule_id t = Some (pretty (pr_id r))))
    (credit_transactions w).

Definition orphaned_rules (w : world) : list price_rule :=
  List.filter (λ r, negb (has_reservation w r)) (price_rules (shopify w)).

(** The count that the sweep reports, and the number of rows that are
    pending in one table and cancelled in the next. *)
Definition cleanup_count (r : response) : option nat :=
  match body r with
  | BCleanup _ n => Some n
  | _ => None
  end.

Fixpoint newly_cancelled (before after : list transaction) : nat :=
  match before, after with
  | t :: before', t' :: after' =>
    ((if bool_decide (status t = pending ∧ status t' = cancelled) then 1 else 0)
     + newly_cancelled before' after')%nat
  | _, _ => 0%nat
  end.

(** ** Sample data *)

(** A stand-in platform: any function can play the MAC, the handler only
    compares what it computes with the header. Its clock is UTC. *)
Definition demo_platform : Platform :=
  {| SHOPIFY_WEBHOOK_SECRET := "whsec";
     hmac_sha256_base64 := λ key data, key +:+ "/" +:+ data;
     JSON_stringify := λ o, pretty (o_id o) +:+ "#" +:+ pretty (o_order_number o);
     LocalTime := λ t, t;
     UTC := λ t, t |}.

Definition alice : string := "alice".

Definition world_of_balance (b : Z) : world :=
  {| profiles := {[ alice := {| email := "alice@example.com"; credits := b |} ]};
     credit_transactions := [];
     shopify := {| next_price_rule_id := 1; price_rules := [] |} |}.

Definition demo_env (now : Z) (suffix : string) : apply_env :=
  {| apply_now := now; random_suffix := suffix;
     price_rule_fetch := HttpOk; discount_code_fetch := HttpOk;
     long_amount_text := "" |}.

Definition demo_reserve (amt : Z) : apply_request :=
  {| creditAmount := Some amt; userId := Some alice; cartItems := Some [] |}.

Definition demo_order (id : Z) (c : string) : order :=
  {| o_id := id; o_order_number := 1000 + id;
     o_discount_codes := Some [ {| dc_code := Some c; dc_amount := "" |} ] |}.

(** A correctly signed payment event for order [id] paid with code [c]. *)
Definition demo_event (id : Z) (c : string) : webhook_request :=
  {| hmac_header := Some (@compute_hash demo_platform (demo_order id c));
     order_body := demo_order id c |}.

Definition demo_cancel (c : string) (rule : option N) : cancel_request :=
  {| cancel_userId := Some alice; cancel_discountCode := Some c;
     cancel_priceRuleId := rule |}.

Definition hour : Z := 60 * 60 * 1000.

(** Two reservations of 30.00 against a balance of 50.00, both paid. *)
Definition overspend_prefix : list op :=
  [ Reserve (demo_env 1000 "aa") (demo_reserve 3000);
    Reserve (demo_env 2000 "bb") (demo_reserve 3000);
    Settle 3000 (demo_event 1 "CREDIT-1000-aa") ].

Definition overspend_ops : list op :=
  (overspend_prefix ++ [ Settle 4000 (demo_event 2 "CREDIT-2000-bb") ])%list.

(** A reserve whose price rule is created and whose discount code is refused. *)
Definition code_refused_env : apply_env :=
  {| apply_now := 1000; random_suffix := "aa";
     price_rule_fetch := HttpOk; discount_code_fetch := HttpNotOk;
     long_amount_text := "" |}.

(** One pending reservation of 25.00 against a balance of 50.00. *)
Definition reserved_world : world :=
  snd (apply_credits (demo_env 1000 "aa") (demo_reserve 2500) (world_of_balance 5000)).

Definition demo_cancel_env : cancel_env :=
  {| cancel_now := 5000; delete_fetch := HttpOk |}.

(** Two pending reservations, made 25 hours and 1 hour before [26 * hour]. *)
Definition sweep_world : world :=
  snd (apply_credits (demo_env (25 * hour) "bb") (demo_reserve 1000)
         (snd (apply_credits (demo_env hour "aa") (demo_reserve 1000)
                 (world_of_balance 5000)))).

(** ** The standalone apply handler  (api/apply-credits.js) *)

(** [cartItems.length === 0] *)
Definition length_is_zero {A} (v : option (list A)) : bool :=
  match v with
  | Some [] => true
  | _ => false
  end.

(** The variant that debits at reservation time: the same checks, with an
    empty cart refused as well; the balance is written after the two Shopify
    calls, and the insert into credit_transactions is commented out.
    [newBalance] is a difference of two doubles; it is sent back as it is
    and written to the [credits] column, which rounds it to two decimals:
    within the range of the column that is the exact difference. *)
Definition api_apply_credits (e : apply_env) (m : http_method) (req : apply_request)
  (w : world) : response * world :=
  match m with
  | OPTIONS => (mk_response 200 BEmpty, w)
  | POST =>
    if negb (truthy_number (creditAmount req)) || negb (truthy_string (userId req))
       || negb (truthy_array (cartItems req))
       || length_is_zero (cartItems req)
    then (mk_response 400
            (BError "Missing required fields: creditAmount, userId, cartItems"), w)
    else
      match creditAmount req, userId req with
      | Some amt, Some uid =>
        match profiles w !! uid with
        | None => (mk_response 404 (BError "User not found"), w)
        | Some p =>
          if credits p <? amt
          then (mk_response 400
                  (BInsufficient "Insufficient credits" (credits p) amt), w)
          else
            let c := make_discount_code e in
            match price_rule_fetch e with
            | NetworkFailure => (apply_failed "fetch failed", w)
            | HttpNotOk => (apply_failed "Failed to create discount in Shopify", w)
            | HttpOk =>
              let '(id, s1) := create_price_rule (amount_text e amt) (shopify w) in
              let w1 := with_shopify w s1 in
              match discount_code_fetch e with
              | NetworkFailure => (apply_failed "fetch failed", w1)
              | HttpNotOk => (apply_failed "Failed to create discount code", w1)
              | HttpOk =>
                let w2 := with_shopify w1 (create_discount_code id c s1) in
                let newBalance := double_sub (to_double (credits p)) (to_double amt) in
                let w3 := with_profiles w2
                            (credit_profile uid (credits p - amt) (profiles w2)) in
                (mk_response 200 (BDebited c amt newBalance id), w3)
              end
            end
        end
      | _, _ => (mk_response 400
                   (BError "Missing required fields: creditAmount, userId, cartItems"), w)
      end
  | _ => (mk_response 405 (BError "Method not allowed"), w)
  end.

(** ** The standalone webhook  (api/order-webhook.js) *)

Inductive api_webhook_body :=
| WError (error : string)
| WMessage (message : string)
| WFinalized (message : string) (orderId : Z) (transactionId : nat).

Record api_webhook_response := mk_api_webhook_response {
  wh_status : nat;
  wh_body : api_webhook_body
}.

Definition verifyWebhook `{Platform} (data : string) (hmacHeader : option string) : bool :=
  bool_decide (Some (hmac_sha256_base64 SHOPIFY_WEBHOOK_SECRET data) = hmacHeader).

Definition api_order_webhook `{Platform} (now : Z) (m : http_method)
  (req : webhook_request) (w : world) : api_webhook_response * world :=
  match m with
  | POST =>
    if negb (verifyWebhook (JSON_stringify (order_body req)) (hmac_header req))
    then (mk_api_webhook_response 401 (WError "Unauthorized"), w)
    else
      match find_credit_discount (order_body req) with
      | None => (mk_api_webhook_response 200 (WMessage "No credits used"), w)
      | Some c =>
        match single (select_rows (λ t, has_code c t && is_pending t)
                        (credit_transactions w)) with
        | None =>
          (mk_api_webhook_response 200 (WMessage "Transaction already processed"), w)
        | Some (i, t) =>
          let w1 := with_transactions w
                      (alter (complete_row now (order_body req)) i
                         (credit_transactions w)) in
          (mk_api_webhook_response 200
             (WFinalized "Credits finalized" (o_id (order_body req)) i), w1)
        end
      end
  | _ => (mk_api_webhook_response 405 (WError "Method not allowed"), w)
  end.

(** ** Sequences of operations on the standalone handlers *)

Inductive api_op :=
| ApiReserve (e : apply_env) (m : http_method) (req : apply_request)
| ApiCancel (e : cancel_env) (m : http_method) (req : cancel_request)
| ApiSettle (now : Z) (m : http_method) (req : webhook_request).

Definition api_step `{Platform} (o : api_op) (w : world) : world :=
  match o with
  | ApiReserve e m req => snd (api_apply_credits e m req w)
  | ApiCancel e m req => snd (api_cancel_credits e m req w)
  | ApiSettle now m req => snd (api_order_webhook now m req w)
  end.

Fixpoint api_run `{Platform} (ops : list api_op) (w : world) : world :=
  match ops with
  | [] => w
  | o :: rest => api_run rest (api_step o w)
  end.

(** ** More vocabulary *)

(** The columns that are written once, when the row is inserted. *)
Definition same_identity (t t' : transaction) : Prop :=
  user_id t' = user_id t ∧ amount t' = amount t ∧ type t' = type t ∧
  discount_code t' = discount_code t ∧ price_rule_id t' = price_rule_id t ∧
  description t' = description t ∧ created_at t' = created_at t.

(** The time stamps and the order columns agree with the state of the row. *)
Definition row_consistent (t : transaction) : Prop :=
  match status t with
  | pending => completed_at t = None ∧ cancelled_at t = None ∧ order_id t = None
  | completed => is_Some (completed_at t) ∧ is_Some (order_id t) ∧
                 is_Some (order_number t) ∧ cancelled_at t = None
  | cancelled => is_Some (cancelled_at t) ∧ completed_at t = None ∧ order_id t = None
  end.

Definition is_reserve (o : op) : bool :=
  match o with Reserve _ _ => true | _ => false end.

Definition is_sweep (o : op) : bool :=
  match o with Sweep _ => true | _ => false end.

Definition has_rule (id : N) (s : shopify_store) : bool :=
  existsb (λ r, N.eqb (pr_id r) id) (price_rules s).

(** ** More sample data *)

Definition bob : string := "bob".

Definition two_accounts : world :=
  {| profiles := {[ alice := {| email := "alice@example.com"; credits := 5000 |};
                    bob := {| email := "bob@example.com"; credits := 800 |} ]};
     credit_transactions := [];
     shopify := {| next_price_rule_id := 1; price_rules := [] |} |}.

(** Alice and Bob each hold one pending reservation. *)
Definition two_reserved : world :=
  snd (apply_credits (demo_env 2000 "bb")
         {| creditAmount := Some 500; userId := Some bob; cartItems := Some [] |}
         (snd (apply_credits (demo_env 1000 "aa") (demo_reserve 2500) two_accounts))).

(** Two pending rows that carry the same discount code. *)
Definition clashing_world : world :=
  snd (apply_credits (demo_env 1000 "aa") (demo_reserve 1000)
         (snd (apply_credits (demo_env 1000 "aa") (demo_reserve 2000)
                 (world_of_balance 5000)))).

(** A server whose zone is two hours ahead of UTC until [clock_change] and
    one hour ahead from then on: its clocks go back by one hour there. *)
Definition clock_change : Z := 100 * hour.

Definition dst_platform : Platform :=
  {| SHOPIFY_WEBHOOK_SECRET := "whsec";
     hmac_sha256_base64 := λ key data, key +:+ "/" +:+ data;
     JSON_stringify := λ o, pretty (o_id o) +:+ "#" +:+ pretty (o_order_number o);
     LocalTime := λ t, t + (if t <? clock_change then 2 * hour else hour);
     UTC := λ l, l - (if l <? clock_change + 2 * hour then 2 * hour else hour) |}.

(** A reservation made 24 hours and a half before [clock_change + 12 * hour]. *)
Definition dst_world : world :=
  snd (apply_credits (demo_env (clock_change - 12 * hour - hour / 2) "aa")
         (demo_reserve 1000) (world_of_balance 5000)).

Definition demo_cart : list cart_item := [ {| variant_id := 42; quantity := 1 |} ].

Definition api_reserve (amt : Z) : apply_request :=
  {| creditAmount := Some amt; userId := Some alice; cartItems := Some demo_cart |}.

Definition api_ops : list api_op :=
  [ ApiReserve (demo_env 1000 "aa") POST (api_reserve 2500);
    ApiCancel demo_cancel_env POST (demo_cancel "CREDIT-1000-aa" (Some 1%N));
    ApiSettle 3000 POST (demo_event 1 "CREDIT-1000-aa") ].

(** ** Requests that overlap *)

(** A handler gives way to other requests at each [await]. A [task] is a
    request of the server between two awaits, with what it holds in its
    local variables: the webhook awaits the lookup of the transaction, the
    read of the profile, the update of the profile and the update of the
    transaction; cancel-credits awaits the lookup, the update and the DELETE
    sent to Shopify. *)
Inductive task :=
| WebhookReceived (now : Z) (req : webhook_request)
| WebhookFound (now : Z) (req : webhook_request) (i : nat) (t : transaction)
| WebhookProfile (now : Z) (req : webhook_request) (i : nat) (t : transaction)
    (p : option profile)
| WebhookDebited (now : Z) (req : webhook_request) (i : nat) (t : transaction)
| CancelReceived (e : cancel_env) (req : cancel_request)
| CancelFound (e : cancel_env) (req : cancel_request) (i : nat) (t : transaction)
| CancelUpdated (e : cancel_env) (req : cancel_request) (t : transaction)
| Responded (r : response).

(** One step of a task: up to and including its next call of the database
    or of Shopify. The updates go by the id of the row that the lookup
    returned ([.eq('id', transaction.id)]), with no condition on its
    status. *)
Definition advance `{Platform} (k : task) (w : world) : task * world :=
  match k with
  | WebhookReceived now req =>
    if negb (bool_decide (Some (compute_hash (order_body req)) = hmac_header req))
    then (Responded (mk_response 401 (BUnauthorized (truthy_string (hmac_header req)))), w)
    else
      match find_credit_discount (order_body req) with
      | None => (Responded (mk_response 200 (BMessage "No credits used")), w)
      | Some c =>
        match single (select_rows (λ t, has_code c t && is_pending t)
                        (credit_transactions w)) with
        | None =>
          (Responded (mk_response 200 (BMessage "Transaction already processed")), w)
        | Some (i, t) => (WebhookFound now req i t, w)
        end
      end
  | WebhookFound now req i t =>
    (WebhookProfile now req i t (profiles w !! user_id t), w)
  | WebhookProfile now req i t (Some p) =>
    (WebhookDebited now req i t,
     with_profiles w (credit_profile (user_id t) (credits p - amount t) (profiles w)))
  | WebhookProfile now req i t None => (WebhookDebited now req i t, w)
  | WebhookDebited now req i t =>
    (Responded (mk_response 200
                  (BFinalized "Credits finalized and deducted" (o_id (order_body req)))),
     with_transactions w
       (alter (complete_row now (order_body req)) i (credit_transactions w)))
  | CancelReceived e req =>
    if negb (truthy_string (cancel_userId req))
       || negb (truthy_string (cancel_discountCode req))
    then (Responded (mk_response 400 (BError "Missing userId or discountCode")), w)
    else
      match cancel_userId req, cancel_discountCode req with
      | Some uid, Some c =>
        match single (select_rows (λ t, owned_by uid t && has_code c t && is_pending t)
                        (credit_transactions w)) with
        | None => (Responded (mk_response 404 (BError "Transaction not found")), w)
        | Some (i, t) => (CancelFound e req i t, w)
        end
      | _, _ => (Responded (mk_response 400 (BError "Missing userId or discountCode")), w)
      end
  | CancelFound e req i t =>
    (CancelUpdated e req t,
     with_transactions w (alter (cancel_row (cancel_now e)) i (credit_transactions w)))
  | CancelUpdated e req t =>
    (Responded
       match read_identifier index_cancel_scope "restoredBalance" with
       | Some restoredBalance => mk_response 200 (BCancelled (amount t) restoredBalance)
       | None => cancel_failed "restoredBalance is not defined"
       end,
     with_shopify w
       (cleanup_price_rule (delete_fetch e) (cancel_priceRuleId req) (shopify w)))
  | Responded r => (Responded r, w)
  end.

(** A task run on its own for [n] steps. *)
Fixpoint finish `{Platform} (n : nat) (k : task) (w : world) : task * world :=
  match n with
  | O => (k, w)
  | S n' => finish n' (advance k w).1 (advance k w).2
  end.

(** The requests in flight advance in the order in which the database and
    Shopify serve their calls: [order] names, call after call, the request
    whose call is served. *)
Fixpoint interleave `{Platform} (order : list nat) (pool : list task) (w : world)
  : list task * world :=
  match order with
  | [] => (pool, w)
  | k :: rest =>
    match pool !! k with
    | Some tk => interleave rest (<[k := (advance tk w).1]> pool) (advance tk w).2
    | None => interleave rest pool w
    end
  end.

(** * Properties *)

(** ** Selecting rows *)

Lemma elem_of_select_from P k rows j t :
  (j, t) ∈ select_from P k rows ↔
  ∃ i, j = (k + i)%nat ∧ rows !! i = Some t ∧ P t = true.
Proof.
  revert k. induction rows as [|a rows IH]; intros k; simpl.
  - split; [intros Hin; inversion Hin | intros (i & _ & Hi & _); done].
  - rewrite elem_of_app, IH. split.
    + intros [Hin | (i & -> & Hi & HP)].
      * destruct (P a) eqn:HPa; [| inversion Hin].
        apply list_elem_of_singleton in Hin. simplify_eq.
        exists 0%nat. split; [lia | done].
      * exists (S i). split; [lia | done].
    + intros (i & -> & Hi & HP). destruct i as [|i]; simpl in Hi.
      * simplify_eq. left. rewrite HP, Nat.add_0_r. by apply list_elem_of_singleton.
      * right. exists i. split; [lia | done].
Qed.

Lemma elem_of_select_rows P rows i t :
  (i, t) ∈ select_rows P rows ↔ rows !! i = Some t ∧ P t = true.
Proof.
  unfold select_rows. rewrite elem_of_select_from. split.
  - intros (j & -> & Hj & HP). done.
  - intros [Hi HP]. exists i. done.
Qed.

Lemma select_from_app P k l1 l2 :
  select_from P k (l1 ++ l2) =
  (select_from P k l1 ++ select_from P (k + List.length l1) l2)%list.
Proof.
  revert k. induction l1 as [|a l1 IH]; intros k; simpl.
  - by rewrite Nat.add_0_r.
  - rewrite IH, <- app_assoc. do 3 f_equal. lia.
Qed.

Lemma select_rows_nil P rows :
  (∀ t, t ∈ rows → P t = false) → select_rows P rows = [].
Proof.
  intros Hno. destruct (select_rows P rows) as [|[j u] l] eqn:E; [done |].
  assert ((j, u) ∈ select_rows P rows) as Hin by (rewrite E; left).
  apply elem_of_select_rows in Hin as [Hj HP].
  rewrite (Hno u) in HP; [done |]. by eapply list_elem_of_lookup_2.
Qed.

Lemma single_Some {A} (l : list A) x : single l = Some x → l = [x].
Proof. destruct l as [|a [|b l]]; simpl; congruence. Qed.

Lemma single_select_rows P rows i t :
  single (select_rows P rows) = Some (i, t) → rows !! i = Some t ∧ P t = true.
Proof.
  intros Hs. apply single_Some in Hs. apply elem_of_select_rows.
  rewrite Hs. left.
Qed.

(** Once the only matching row stops matching, nothing matches. *)
Lemma select_rows_alter_done P f rows i t :
  single (select_rows P rows) = Some (i, t) →
  P (f t) = false →
  select_rows P (alter f i rows) = [].
Proof.
  intros Hs HPf. pose proof (single_select_rows _ _ _ _ Hs) as [Hi _].
  apply single_Some in Hs.
  destruct (select_rows P (alter f i rows)) as [|[j u] l] eqn:E; [done |].
  assert ((j, u) ∈ select_rows P (alter f i rows)) as Hin by (rewrite E; left).
  apply elem_of_select_rows in Hin as [Hj HP].
  destruct (decide (j = i)) as [-> | Hne].
  - rewrite list_lookup_alter_eq, Hi in Hj. simpl in Hj. congruence.
  - rewrite list_lookup_alter_ne in Hj by done.
    assert ((j, u) ∈ select_rows P rows) as Hin by (by apply elem_of_select_rows).
    rewrite Hs in Hin. apply list_elem_of_singleton in Hin. congruence.
Qed.

Lemma select_rows_empty_inv P rows i t :
  select_rows P rows = [] → rows !! i = Some t → P t = false.
Proof.
  intros He Hi. destruct (P t) eqn:HP; [| done].
  assert ((i, t) ∈ select_rows P rows) as Hin by (by apply elem_of_select_rows).
  rewrite He in Hin. inversion Hin.
Qed.

Lemma is_pending_true t : is_pending t = true ↔ status t = pending.
Proof. unfold is_pending. apply bool_decide_eq_true. Qed.

(** ** What each handler does to the store *)

Section Handlers.
Context `{Platform}.

Lemma apply_credits_store e req w :
  profiles (apply_credits e req w).2 = profiles w ∧
  ∃ extra, credit_transactions (apply_credits e req w).2
           = (credit_transactions w ++ extra)%list ∧
           ∀ t, t ∈ extra → status t = pending.
Proof.
  unfold apply_credits, insert_transaction.
  repeat case_match; simpl; (split; [done |]);
    try (exists []; rewrite app_nil_r; split; [done | intros ? Hin; inversion Hin]).
  eexists; split; [done |]. intros t Hin.
  apply list_elem_of_singleton in Hin. by subst.
Qed.

Lemma cancel_credits_store e req w :
  profiles (cancel_credits e req w).2 = profiles w ∧
  (credit_transactions (cancel_credits e req w).2 = credit_transactions w ∨
   ∃ i t, credit_transactions w !! i = Some t ∧ status t = pending ∧
          credit_transactions (cancel_credits e req w).2
          = alter (cancel_row (cancel_now e)) i (credit_transactions w)).
Proof.
  unfold cancel_credits.
  repeat case_match; simpl; (split; [done |]); try (by left).
  all: right; match goal with
       | Hs : single _ = Some (?i, ?t) |- _ =>
         apply single_select_rows in Hs as [Hi HP]; exists i, t
       end.
  all: apply andb_true_iff in HP as [_ HP]; apply is_pending_true in HP; done.
Qed.

Lemma order_webhook_store now req w :
  (order_webhook now req w).2 = w ∨
  ∃ i t, credit_transactions w !! i = Some t ∧ status t = pending ∧
         credit_transactions (order_webhook now req w).2
         = alter (complete_row now (order_body req)) i (credit_transactions w) ∧
         profiles (order_webhook now req w).2
         = debit_profile (user_id t) (amount t) (profiles w).
Proof.
  unfold order_webhook.
  repeat case_match; simpl; try (by left).
  right. match goal with
       | Hs : single _ = Some (?i, ?t) |- _ =>
         apply single_select_rows in Hs as [Hi HP]; exists i, t
       end.
  apply andb_true_iff in HP as [_ HP]. apply is_pending_true in HP. done.
Qed.

Lemma cleanup_pending_store now w :
  profiles (cleanup_pending now w).2 = profiles w ∧
  shopify (cleanup_pending now w).2 = shopify w ∧
  ∀ i, credit_transactions (cleanup_pending now w).2 !! i
       = (λ t, if is_old_pending (twentyFourHoursAgo now) t
               then cancel_row now t else t) <$> credit_transactions w !! i.
Proof.
  unfold cleanup_pending. case_match eqn:Hlen; simpl.
  - split; [done |]. split; [done |]. intros i. by rewrite list_lookup_fmap.
  - split; [done |]. split; [done |]. intros i.
    destruct (credit_transactions w !! i) as [t|] eqn:Hi; [| done]. simpl.
    apply Nat.ltb_ge in Hlen.
    destruct (select_rows _ (credit_transactions w)) eqn:He; [| simpl in Hlen; lia].
    by rewrite (select_rows_empty_inv _ _ _ _ He Hi).
Qed.

(** Every operation keeps each existing row, or closes it from pending. *)
Lemma step_row o w i t :
  credit_transactions w !! i = Some t →
  ∃ t', credit_transactions (step o w).2 !! i = Some t' ∧ row_evolves t t'.
Proof.
  intros Hi. destruct o as [e req | now req | e req | now]; simpl.
  - destruct (apply_credits_store e req w) as (_ & extra & -> & _).
    exists t. split; [| constructor]. by apply lookup_app_l_Some.
  - destruct (order_webhook_store now req w) as [-> | (j & u & Hj & Hu & -> & _)].
    + exists t. split; [done | constructor].
    + destruct (decide (i = j)) as [-> | Hne].
      * rewrite list_lookup_alter_eq, Hi. simpl. eexists. split; [done |].
        simplify_eq. by constructor.
      * rewrite list_lookup_alter_ne by done. exists t. split; [done | constructor].
  - destruct (cancel_credits_store e req w) as (_ & [-> | (j & u & Hj & Hu & ->)]).
    + exists t. split; [done | constructor].
    + destruct (decide (i = j)) as [-> | Hne].
      * rewrite list_lookup_alter_eq, Hi. simpl. eexists. split; [done |].
        simplify_eq. by constructor.
      * rewrite list_lookup_alter_ne by done. exists t. split; [done | constructor].
  - destruct (cleanup_pending_store now w) as (_ & _ & ->). rewrite Hi. simpl.
    eexists. split; [done |].
    destruct (is_old_pending _ t) eqn:Hold; [| constructor].
    apply andb_true_iff in Hold as [Hp _]. apply is_pending_true in Hp.
    by constructor.
Qed.

Lemma row_evolves_terminal t t' :
  row_evolves t t' → status t ≠ pending → t' = t.
Proof. intros [] Hs; done. Qed.

Lemma row_evolves_status t t' :
  row_evolves t t' →
  status t' = status t ∨
  (status t = pending ∧ (status t' = completed ∨ status t' = cancelled)).
Proof. intros []; simpl; auto. Qed.

Lemma row_evolves_amount t t' : row_evolves t t' → amount t' = amount t.
Proof. by intros []. Qed.

Lemma run_terminal_row ops w i t :
  credit_transactions w !! i = Some t → status t ≠ pending →
  credit_transactions (run ops w) !! i = Some t.
Proof.
  revert w. induction ops as [|o ops IH]; intros w Hi Hs; simpl; [done |].
  destruct (step_row o w i t Hi) as (t' & Hi' & Hev).
  apply row_evolves_terminal in Hev; [| done]. subst. by apply IH.
Qed.

Lemma transitions_terminal ops w i t :
  credit_transactions w !! i = Some t → status t ≠ pending →
  transitions i ops w = 0%nat.
Proof.
  revert w. induction ops as [|o ops IH]; intros w Hi Hs; simpl; [done |].
  destruct (step_row o w i t Hi) as (t' & Hi' & Hev).
  apply row_evolves_terminal in Hev; [| done]. subst.
  rewrite (IH _ Hi' Hs). unfold state_changed, status_at. rewrite Hi, Hi'. simpl.
  by rewrite bool_decide_eq_true_2.
Qed.

Lemma transitions_le_1 ops w i : (transitions i ops w ≤ 1)%nat.
Proof.
  revert w. induction ops as [|o ops IH]; intros w; simpl; [lia |].
  destruct (credit_transactions w !! i) as [t|] eqn:Hi.
  - destruct (step_row o w i t Hi) as (t' & Hi' & Hev).
    unfold state_changed, status_at. rewrite Hi, Hi'. simpl.
    destruct (decide (status t = status t')) as [Heq | Hne].
    + rewrite bool_decide_eq_true_2 by done. simpl. apply IH.
    + rewrite bool_decide_eq_false_2 by done. simpl.
      assert (status t' ≠ pending) as Hterm.
      { destruct (row_evolves_status _ _ Hev) as [? | [? [-> | ->]]]; congruence. }
      by rewrite (transitions_terminal ops _ i t' Hi' Hterm).
  - unfold state_changed at 1, status_at at 1. rewrite Hi. simpl. apply IH.
Qed.

End Handlers.

(** ** The reservation state machine *)

Section OneShot.
Context `{Platform}.

Lemma settle_twice now now' req w :
  fst (order_webhook now req w)
  = mk_response 200
      (BFinalized "Credits finalized and deducted" (o_id (order_body req))) →
  order_webhook now' req (order_webhook now req w).2
  = (mk_response 200 (BMessage "Transaction already processed"),
     (order_webhook now req w).2).
Proof.
  unfold order_webhook.
  destruct (negb (bool_decide (_ = hmac_header req))) eqn:Hmac; [done |].
  destruct (find_credit_discount (order_body req)) as [c|] eqn:Hc; [| done].
  destruct (single _) as [[i t]|] eqn:Hs; [| done].
  intros _. simpl.
  rewrite (select_rows_alter_done _ _ _ _ _ Hs); [done |].
  apply andb_false_iff. right. by apply bool_decide_eq_false.
Qed.

Lemma cancel_twice e e' req w :
  (cancel_credits e req w).2 ≠ w →
  cancel_credits e' req (cancel_credits e req w).2
  = (mk_response 404 (BError "Transaction not found"), (cancel_credits e req w).2).
Proof.
  unfold cancel_credits.
  destruct (_ || _) eqn:Hv; [done |].
  destruct (cancel_userId req) as [uid|]; [| done].
  destruct (cancel_discountCode req) as [c|]; [| done].
  destruct (single _) as [[i t]|] eqn:Hs; [| done].
  intros _. simpl.
  rewrite (select_rows_alter_done _ _ _ _ _ Hs); [done |].
  apply andb_false_iff. right. by apply bool_decide_eq_false.
Qed.

Lemma sweep_twice now now' w :
  twentyFourHoursAgo now' ≤ twentyFourHoursAgo now →
  cleanup_pending now' (cleanup_pending now w).2
  = (mk_response 200 (BCleanup "No old pending transactions to clean up" 0),
     (cleanup_pending now w).2).
Proof.
  intros Hle. unfold cleanup_pending at 1.
  rewrite select_rows_nil; [done |].
  intros t Hin. apply list_elem_of_lookup in Hin as [i Hi].
  destruct (cleanup_pending_store now w) as (_ & _ & Hrows).
  rewrite Hrows in Hi.
  destruct (credit_transactions w !! i) as [u|]; simpl in Hi; [| done].
  simplify_eq. unfold is_old_pending at 1.
  destruct (is_old_pending (twentyFourHoursAgo now) u) eqn:Hold.
  - done.
  - unfold is_old_pending in Hold. apply andb_false_iff.
    apply andb_false_iff in Hold as [Hp | Hc]; [by left |]. right.
    apply Z.ltb_ge in Hc. apply Z.ltb_ge. lia.
Qed.

(** X26. Requests handled one after the other. A reservation changes
    state at most once along any sequence of reserve, settle, cancel and
    sweep operations in which no two requests overlap, and such a change goes
    from pending to completed or from pending to cancelled; a row that is
    completed or cancelled is left as it is by every later operation; and an
    operation that is repeated after it took effect is a no-op: the second
    settlement is answered "Transaction already processed", the second
    cancellation is answered 404 "Transaction not found", and a second sweep
    cancels nothing. *)
Theorem one_shot_transition (i : nat) :
  (∀ ops w, (transitions i ops w ≤ 1)%nat) ∧
  (∀ o w s s',
     status_at w i = Some s → status_at (step o w).2 i = Some s' → s' ≠ s →
     s = pending ∧ (s' = completed ∨ s' = cancelled)) ∧
  (∀ ops w t,
     credit_transactions w !! i = Some t → status t ≠ pending →
     credit_transactions (run ops w) !! i = Some t) ∧
  (∀ now now' req w,
     fst (order_webhook now req w)
     = mk_response 200
         (BFinalized "Credits finalized and deducted" (o_id (order_body req))) →
     AlreadyProcessed (fst (order_webhook now' req (order_webhook now req w).2)) ∧
     (order_webhook now' req (order_webhook now req w).2).2
     = (order_webhook now req w).2) ∧
  (∀ e e' req w,
     (cancel_credits e req w).2 ≠ w →
     NotFound (fst (cancel_credits e' req (cancel_credits e req w).2)) ∧
     (cancel_credits e' req (cancel_credits e req w).2).2
     = (cancel_credits e req w).2) ∧
  (∀ now w, (cleanup_pending now (cleanup_pending now w).2).2
            = (cleanup_pending now w).2).
Proof.
  split; [intros; apply transitions_le_1 |].
  split.
  { intros o w s s' Hs Hs' Hne. unfold status_at in *.
    destruct (credit_transactions w !! i) as [t|] eqn:Hi; [| done].
    destruct (step_row o w i t Hi) as (t' & Hi' & Hev).
    rewrite Hi' in Hs'. simpl in *. simplify_eq.
    destruct (row_evolves_status _ _ Hev) as [? | ?]; [congruence | done]. }
  split; [intros; by apply run_terminal_row |].
  split; [intros now now' req w Hr; by rewrite (settle_twice _ now' _ _ Hr) |].
  split; [intros e e' req w Hr; by rewrite (cancel_twice _ e' _ _ Hr) |].
  intros now w. by rewrite sweep_twice.
Qed.

End OneShot.

(** ** The ledger *)

Lemma select_from_nil P k rows :
  (∀ t, t ∈ rows → P t = false) → select_from P k rows = [].
Proof.
  revert k. induction rows as [|a rows IH]; intros k Hno; simpl; [done |].
  rewrite (Hno a) by left. simpl. apply IH. intros t Hin. apply Hno. by right.
Qed.

Lemma select_from_only P k rows i t :
  only_match P rows i t → select_from P k rows = [((k + i)%nat, t)].
Proof.
  revert k i. induction rows as [|a rows IH]; intros k i (Hi & HP & Huniq); [done |].
  simpl. destruct i as [|i]; simpl in Hi.
  - simplify_eq. rewrite HP, Nat.add_0_r, select_from_nil; [done |].
    intros u Hin. apply list_elem_of_lookup in Hin as [j Hj].
    destruct (P u) eqn:HPu; [| done].
    specialize (Huniq (S j) u Hj HPu). lia.
  - destruct (P a) eqn:HPa.
    + specialize (Huniq 0%nat a eq_refl HPa). lia.
    + simpl. rewrite (IH (S k) i).
      * do 2 f_equal. lia.
      * split; [done |]. split; [done |]. intros j u Hj HPu.
        specialize (Huniq (S j) u Hj HPu). lia.
Qed.

Lemma single_only_match P rows i t :
  only_match P rows i t → single (select_rows P rows) = Some (i, t).
Proof. intros Hm. unfold select_rows. by rewrite (select_from_only _ _ _ _ _ Hm). Qed.








Lemma cleanup_pending_rows `{Platform} now w :
  credit_transactions (cleanup_pending now w).2
  = (λ t, if is_old_pending (twentyFourHoursAgo now) t
          then cancel_row now t else t) <$> credit_transactions w.
Proof.
  apply list_eq. intros i. rewrite list_lookup_fmap.
  by destruct (cleanup_pending_store now w) as (_ & _ & ->).
Qed.

Section Ledger.
Context `{Platform}.






End Ledger.

(** ** Reserve *)

Lemma apply_credits_valid e req w uid amt items p :
  creditAmount req = Some amt → userId req = Some uid →
  cartItems req = Some items → amt ≠ 0 → uid ≠ "" →
  profiles w !! uid = Some p →
  apply_credits e req w =
  if credits p <? amt
  then (mk_response 400 (BInsufficient "Insufficient credits" (credits p) amt), w)
  else
    match price_rule_fetch e with
    | NetworkFailure => (apply_failed "fetch failed", w)
    | HttpNotOk => (apply_failed "Failed to create discount in Shopify", w)
    | HttpOk =>
      let s1 := snd (create_price_rule (amount_text e amt) (shopify w)) in
      let id := next_price_rule_id (shopify w) in
      match discount_code_fetch e with
      | NetworkFailure => (apply_failed "fetch failed", with_shopify w s1)
      | HttpNotOk => (apply_failed "Failed to create discount code", with_shopify w s1)
      | HttpOk =>
        (mk_response 200 (BApplied (make_discount_code e) amt (credits p) id),
         insert_transaction (reserved_row e uid amt (make_discount_code e) id)
           {| profiles := profiles w;
              credit_transactions := credit_transactions w;
              shopify := create_discount_code id (make_discount_code e) s1 |})
      end
    end.
Proof.
  intros Ha Hu Hc Hamt Huid Hp. unfold apply_credits.
  rewrite Ha, Hu, Hc. simpl.
  apply Z.eqb_neq in Hamt. rewrite Hamt.
  apply String.eqb_neq in Huid. rewrite Huid. simpl.
  rewrite Hp. repeat case_match; done.
Qed.

(** C5. A reserve for more than the balance of the account is answered 400
    "Insufficient credits", and the store is left as it was: no price rule
    or discount code is created in Shopify and no row is added to
    credit_transactions. (The request names an existing account, carries
    cart items and an amount other than zero.) *)
Theorem reserve_insufficient_balance
  (e : apply_env) (req : apply_request) (w : world)
  (uid : string) (amt : Z) (items : list cart_item) (p : profile) :
  creditAmount req = Some amt → userId req = Some uid →
  cartItems req = Some items → amt ≠ 0 → uid ≠ "" →
  profiles w !! uid = Some p →
  credits p < amt →
  InsufficientBalance (fst (apply_credits e req w)) ∧
  (apply_credits e req w).2 = w ∧
  shopify (apply_credits e req w).2 = shopify w ∧
  credit_transactions (apply_credits e req w).2 = credit_transactions w.
Proof.
  intros Ha Hu Hc Hamt Huid Hp Hlt.
  rewrite (apply_credits_valid e req w uid amt items p) by done.
  apply Z.ltb_lt in Hlt. rewrite Hlt. simpl.
  split; [| done]. split; [done |]. by eexists _, _.
Qed.

(** C10 (amended). A reserve with a strictly negative amount is not
    rejected: for an account whose balance is not negative neither the
    validation of the input nor the balance check answers 400, and when
    Shopify accepts the two calls the handler answers 200. For an amount
    above -100000000.00 it appends a pending row whose amount is that
    negative amount; at -100000000.00 and below the amount does not fit the
    DECIMAL(10, 2) column, the insert is refused without the handler
    noticing, and no row is added. *)
Theorem reserve_negative_amount
  (e : apply_env) (req : apply_request) (w : world)
  (uid : string) (amt : Z) (items : list cart_item) (p : profile) :
  creditAmount req = Some amt → userId req = Some uid →
  cartItems req = Some items → uid ≠ "" →
  profiles w !! uid = Some p →
  amt < 0 → 0 ≤ credits p →
  http_status (fst (apply_credits e req w)) ≠ 400%nat ∧
  ¬ ValidationError (fst (apply_credits e req w)) ∧
  ¬ InsufficientBalance (fst (apply_credits e req w)) ∧
  (price_rule_fetch e = HttpOk → discount_code_fetch e = HttpOk →
   http_status (fst (apply_credits e req w)) = 200%nat ∧
   (- 10000000000 < amt →
    ∃ t, credit_transactions (apply_credits e req w).2
         = (credit_transactions w ++ [t])%list ∧
         status t = pending ∧ amount t = amt ∧ user_id t = uid ∧ amount t < 0) ∧
   (amt ≤ - 10000000000 →
    credit_transactions (apply_credits e req w).2 = credit_transactions w)).
Proof.
  intros Ha Hu Hc Huid Hp Hneg Hbal.
  rewrite (apply_credits_valid e req w uid amt items p) by (done || lia).
  assert ((credits p <? amt) = false) as -> by (apply Z.ltb_ge; lia).
  assert (∀ r : response, http_status r ≠ 400%nat →
            http_status r ≠ 400%nat ∧ ¬ ValidationError r ∧ ¬ InsufficientBalance r)
    as Hcls.
  { intros r Hr. split; [done |]. split; intros [? _]; done. }
  split_and!; try (apply Hcls; repeat case_match; simpl; lia).
  intros -> ->. simpl. split; [done |].
  unfold insert_transaction, fits_decimal_10_2. simpl.
  change (10 ^ 10) with 10000000000.
  destruct (Z.ltb_spec (Z.abs amt) 10000000000) as [Hfit | Hbig]; simpl.
  - split; [| lia]. intros _. eexists. split; [done |]. done.
  - split; [lia | done].
Qed.

(** C8 (amended). When the price rule has been created and the creation of
    the discount code then fails, Reserve answers 500 "Failed to apply
    credits" and persists no reservation row and no change of balance, and
    it attempts no rollback: the price rule that was just created stays in
    Shopify. *)
Theorem reserve_no_rollback
  (e : apply_env) (req : apply_request) (w : world)
  (uid : string) (amt : Z) (items : list cart_item) (p : profile) :
  creditAmount req = Some amt → userId req = Some uid →
  cartItems req = Some items → amt ≠ 0 → uid ≠ "" →
  profiles w !! uid = Some p →
  amt ≤ credits p →
  price_rule_fetch e = HttpOk → discount_code_fetch e ≠ HttpOk →
  http_status (fst (apply_credits e req w)) = 500%nat ∧
  (∃ m, body (fst (apply_credits e req w)) = BFailure "Failed to apply credits" m) ∧
  credit_transactions (apply_credits e req w).2 = credit_transactions w ∧
  profiles (apply_credits e req w).2 = profiles w ∧
  price_rules (shopify (apply_credits e req w).2)
  = (price_rules (shopify w) ++
     [ {| pr_id := next_price_rule_id (shopify w);
          pr_title := "Store Credit - " +:+ amount_text e amt;
          pr_value := "-" +:+ amount_text e amt;
          pr_codes := [] |} ])%list.
Proof.
  intros Ha Hu Hc Hamt Huid Hp Hle Hrule Hcode.
  rewrite (apply_credits_valid e req w uid amt items p) by done.
  assert ((credits p <? amt) = false) as -> by (apply Z.ltb_ge; lia).
  rewrite Hrule. destruct (discount_code_fetch e); simpl; [| | done];
    (split; [done |]); (split; [by eexists |]); done.
Qed.

(** ** Settle, cancel and sweep on a reservation that is found *)

Lemma only_match_appended P rows t :
  (∀ u, u ∈ rows → P u = false) → P t = true →
  only_match P (rows ++ [t]) (List.length rows) t.
Proof.
  intros Hno HP. split; [| split; [done |]].
  - rewrite lookup_app_r by done. by rewrite Nat.sub_diag.
  - intros j u Hj HPu.
    destruct (decide (j < List.length rows)%nat) as [Hlt | Hge].
    + rewrite lookup_app_l in Hj by done.
      rewrite (Hno u) in HPu; [done |]. by eapply list_elem_of_lookup_2.
    + apply lookup_lt_Some in Hj. rewrite length_app in Hj. simpl in Hj. lia.
Qed.

Section Found.
Context `{Platform}.

Lemma order_webhook_settles now req w c i t p :
  hmac_header req = Some (compute_hash (order_body req)) →
  find_credit_discount (order_body req) = Some c →
  only_match (λ t, has_code c t && is_pending t) (credit_transactions w) i t →
  profiles w !! user_id t = Some p →
  order_webhook now req w
  = (mk_response 200
       (BFinalized "Credits finalized and deducted" (o_id (order_body req))),
     {| profiles := <[user_id t := {| email := email p;
                                      credits := credits p - amount t |}]> (profiles w);
        credit_transactions :=
          alter (complete_row now (order_body req)) i (credit_transactions w);
        shopify := shopify w |}).
Proof.
  intros Hmac Hc Hm Hp. apply single_only_match in Hm.
  unfold order_webhook. rewrite Hmac, bool_decide_eq_true_2 by done. simpl.
  rewrite Hc, Hm. unfold debit_profile. by rewrite Hp.
Qed.

Lemma cancel_credits_found e req w uid c i t :
  cancel_userId req = Some uid → cancel_discountCode req = Some c →
  uid ≠ "" → c ≠ "" →
  only_match (λ t, owned_by uid t && has_code c t && is_pending t)
    (credit_transactions w) i t →
  cancel_credits e req w
  = (mk_response 500
       (BFailure "Failed to cancel credits" "restoredBalance is not defined"),
     {| profiles := profiles w;
        credit_transactions :=
          alter (cancel_row (cancel_now e)) i (credit_transactions w);
        shopify := cleanup_price_rule (delete_fetch e) (cancel_priceRuleId req)
                     (shopify w) |}).
Proof.
  intros Hu Hc Huid Hcode Hm. apply single_only_match in Hm.
  unfold cancel_credits. rewrite Hu, Hc. simpl.
  apply String.eqb_neq in Huid, Hcode. rewrite Huid, Hcode. simpl.
  by rewrite Hm.
Qed.


Lemma cleanup_pending_old now w i t :
  credit_transactions w !! i = Some t → status t = pending →
  created_at t < twentyFourHoursAgo now →
  credit_transactions (cleanup_pending now w).2 !! i = Some (cancel_row now t).
Proof.
  intros Hi Hs Hold. rewrite cleanup_pending_rows, list_lookup_fmap, Hi. simpl.
  unfold is_old_pending, is_pending.
  rewrite bool_decide_eq_true_2 by done.
  apply Z.ltb_lt in Hold. by rewrite Hold.
Qed.

Lemma cleanup_pending_other now w i t :
  credit_transactions w !! i = Some t →
  ¬ (status t = pending ∧ created_at t < twentyFourHoursAgo now) →
  credit_transactions (cleanup_pending now w).2 !! i = Some t.
Proof.
  intros Hi Hnot. rewrite cleanup_pending_rows, list_lookup_fmap, Hi. simpl.
  destruct (is_old_pending _ t) eqn:Hold; [| done].
  apply andb_true_iff in Hold as [Hp Hc].
  apply is_pending_true in Hp. apply Z.ltb_lt in Hc. by destruct Hnot.
Qed.

Lemma cleanup_pending_count now w :
  cleanup_count (fst (cleanup_pending now w))
  = Some (List.length (select_rows (is_old_pending (twentyFourHoursAgo now))
                         (credit_transactions w))).
Proof.
  unfold cleanup_pending.
  by destruct (select_rows _ (credit_transactions w)) as [|x l].
Qed.

Lemma select_from_length_cancelled cutoff now k rows :
  List.length (select_from (is_old_pending cutoff) k rows)
  = newly_cancelled rows
      ((λ t, if is_old_pending cutoff t then cancel_row now t else t) <$> rows).
Proof.
  revert k. induction rows as [|a rows IH]; intros k; simpl; [done |].
  rewrite length_app, (IH (S k)). f_equal.
  destruct (is_old_pending cutoff a) eqn:Hold; simpl.
  - apply andb_true_iff in Hold as [Hp _]. apply is_pending_true in Hp.
    by rewrite bool_decide_eq_true_2.
  - rewrite bool_decide_eq_false_2; [done |]. intros [? ?]. congruence.
Qed.

End Found.

(** ** The claims on reserve-then-settle, cancellation and the sweep *)

Section Protocol.
Context `{Platform}.

(** C1. With a balance [b] and a reserve of [a] not above it (50.00 and
    25.00 in the scenario; [a] an amount that the column can hold), reserve
    succeeds and returns a discount code
    while the balance still reads [b]; a settlement event for that code makes
    the balance [b - a] and the reservation completed; a second delivery of
    the event is answered "Transaction already processed" and changes
    nothing, the balance stays [b - a]. *)
Theorem reserve_settle_scenario
  (e : apply_env) (req : apply_request) (ev : webhook_request) (now1 now2 : Z)
  (w : world) (uid : string) (a b : Z) (items : list cart_item) (p : profile) :
  creditAmount req = Some a → userId req = Some uid →
  cartItems req = Some items → a ≠ 0 → uid ≠ "" →
  profiles w !! uid = Some p → credits p = b → a ≤ b →
  fits_decimal_10_2 a = true →
  price_rule_fetch e = HttpOk → discount_code_fetch e = HttpOk →
  (∀ t, t ∈ credit_transactions w →
        has_code (make_discount_code e) t && is_pending t = false) →
  hmac_header ev = Some (compute_hash (order_body ev)) →
  find_credit_discount (order_body ev) = Some (make_discount_code e) →
  let r1 := apply_credits e req w in
  let r2 := order_webhook now1 ev r1.2 in
  let r3 := order_webhook now2 ev r2.2 in
  let i := List.length (credit_transactions w) in
  fst r1 = mk_response 200
             (BApplied (make_discount_code e) a b (next_price_rule_id (shopify w))) ∧
  GetBalance r1.2 uid = Some b ∧
  status_at r1.2 i = Some pending ∧
  fst r2 = mk_response 200
             (BFinalized "Credits finalized and deducted" (o_id (order_body ev))) ∧
  GetBalance r2.2 uid = Some (b - a) ∧
  status_at r2.2 i = Some completed ∧
  AlreadyProcessed (fst r3) ∧
  r3.2 = r2.2 ∧
  GetBalance r3.2 uid = Some (b - a).
Proof.
  intros Ha Hu Hc Hamt Huid Hp Hb Hle Hfit Hrule Hcode Hfresh Hmac Hfind.
  intros r1 r2 r3 i.
  assert (r1 = (mk_response 200
                  (BApplied (make_discount_code e) a b
                     (next_price_rule_id (shopify w))),
                {| profiles := profiles w;
                   credit_transactions :=
                     credit_transactions w ++
                     [reserved_row e uid a (make_discount_code e)
                        (next_price_rule_id (shopify w))];
                   shopify := create_discount_code (next_price_rule_id (shopify w))
                                (make_discount_code e)
                                (snd (create_price_rule (amount_text e a)
                                        (shopify w))) |})) as E1.
  { unfold r1. rewrite (apply_credits_valid e req w uid a items p) by done.
    assert ((credits p <? a) = false) as -> by (apply Z.ltb_ge; lia).
    rewrite Hrule, Hcode, Hb. unfold insert_transaction. simpl. by rewrite Hfit. }
  set (t := reserved_row e uid a (make_discount_code e)
              (next_price_rule_id (shopify w))) in *.
  assert (only_match (λ t, has_code (make_discount_code e) t && is_pending t)
            (credit_transactions r1.2) i t) as Hm.
  { rewrite E1. simpl. apply only_match_appended; [done |].
    unfold has_code, is_pending. simpl. by rewrite !bool_decide_eq_true_2. }
  assert (profiles r1.2 !! user_id t = Some p) as Hp1 by (by rewrite E1).
  pose proof (order_webhook_settles now1 ev r1.2 _ i t p Hmac Hfind Hm Hp1) as E2.
  fold r2 in E2.
  assert (fst r2 = mk_response 200
            (BFinalized "Credits finalized and deducted" (o_id (order_body ev))))
    as Hr2 by (by rewrite E2).
  pose proof (settle_twice now1 now2 ev r1.2 Hr2) as E3. fold r2 r3 in E3.
  assert (GetBalance r2.2 uid = Some (b - a)) as Hbal2.
  { rewrite E2. unfold GetBalance. simpl. rewrite lookup_insert_eq. simpl.
    by rewrite Hb. }
  split_and!.
  - by rewrite E1.
  - rewrite E1. unfold GetBalance. simpl. by rewrite Hp, <- Hb.
  - destruct Hm as (Hi & _ & _). unfold status_at. by rewrite Hi.
  - done.
  - done.
  - destruct Hm as (Hi & _ & _). rewrite E2. unfold status_at. simpl.
    by rewrite list_lookup_alter_eq, Hi.
  - by rewrite E3.
  - by rewrite E3.
  - by rewrite E3.
Qed.


(** C7 (what the code does). Cancel on an existing pending reservation of
    the account does turn the reservation into cancelled, but the caller does
    not get a success result: building the response reads [restoredBalance],
    which the handler never declares, and the handler answers 500 "Failed to
    cancel credits". *)
Theorem cancel_answers_server_error
  (e : cancel_env) (req : cancel_request) (w : world)
  (uid c : string) (i : nat) (t : transaction) :
  cancel_userId req = Some uid → cancel_discountCode req = Some c →
  uid ≠ "" → c ≠ "" →
  only_match (λ t, owned_by uid t && has_code c t && is_pending t)
    (credit_transactions w) i t →
  fst (cancel_credits e req w)
  = mk_response 500
      (BFailure "Failed to cancel credits" "restoredBalance is not defined") ∧
  status_at (cancel_credits e req w).2 i = Some cancelled.
Proof.
  intros Hu Hc Huid Hcode Hm.
  rewrite (cancel_credits_found e req w uid c i t) by done.
  destruct Hm as (Hi & _ & _). unfold status_at. simpl.
  by rewrite list_lookup_alter_eq, Hi.
Qed.

(** C9 (what the code does). The sweep cancels every pending reservation
    created before its cut-off, leaves every other row as it is and reports
    the number of reservations it cancelled. The cut-off is not 24 hours
    before the sweep but the instant at which the local clock of the server
    read 24 hours less than it reads now. When the clock was not changed in
    between, that is 24 hours ago and the sweep does what the claim says.
    When the clock was set back by [d] in between (the day daylight saving
    ends), the cut-off is 24 hours and [d] ago, and a pending reservation
    aged between 24 hours and 24 hours plus [d] is left pending. *)
Theorem sweep_expired (now : Z) (w : world) :
  (∀ i t, credit_transactions w !! i = Some t → status t = pending →
          created_at t < twentyFourHoursAgo now →
          credit_transactions (cleanup_pending now w).2 !! i
          = Some (cancel_row now t)) ∧
  (∀ i t, credit_transactions w !! i = Some t →
          twentyFourHoursAgo now ≤ created_at t ∨ status t ≠ pending →
          credit_transactions (cleanup_pending now w).2 !! i = Some t) ∧
  List.length (credit_transactions (cleanup_pending now w).2)
  = List.length (credit_transactions w) ∧
  http_status (fst (cleanup_pending now w)) = 200%nat ∧
  cleanup_count (fst (cleanup_pending now w))
  = Some (newly_cancelled (credit_transactions w)
            (credit_transactions (cleanup_pending now w).2)) ∧
  (twentyFourHoursAgo now = now - 24 * hour →
   ∀ i t, credit_transactions w !! i = Some t → status t = pending →
          (created_at t < now - 24 * hour →
           status_at (cleanup_pending now w).2 i = Some cancelled) ∧
          (now - 24 * hour ≤ created_at t →
           credit_transactions (cleanup_pending now w).2 !! i = Some t)) ∧
  (∀ d i t, twentyFourHoursAgo now = now - 24 * hour - d →
            credit_transactions w !! i = Some t → status t = pending →
            now - 24 * hour - d ≤ created_at t → created_at t < now - 24 * hour →
            credit_transactions (cleanup_pending now w).2 !! i = Some t ∧
            status_at (cleanup_pending now w).2 i = Some pending).
Proof.
  split_and!.
  - intros i t Hi Hs Hold. by apply cleanup_pending_old.
  - intros i t Hi Hyoung. apply cleanup_pending_other; [done |].
    intros [Hs Hlt]. destruct Hyoung; [lia | done].
  - by rewrite cleanup_pending_rows, length_fmap.
  - unfold cleanup_pending. by case_match.
  - rewrite cleanup_pending_count, cleanup_pending_rows. f_equal.
    apply select_from_length_cancelled.
  - intros Hcut i t Hi Hs. split.
    + intros Hold. unfold status_at.
      rewrite (cleanup_pending_old now w i t); [done | done | done | lia].
    + intros Hyoung. apply cleanup_pending_other; [done |]. intros [_ Hlt]. lia.
  - intros d i t Hcut Hi Hs Hlow Hhigh.
    assert (credit_transactions (cleanup_pending now w).2 !! i = Some t) as Hkept.
    { apply cleanup_pending_other; [done |]. intros [_ Hlt]. lia. }
    split; [done |]. unfold status_at. by rewrite Hkept, <- Hs.
Qed.

End Protocol.

(** ** The claims at concrete stores *)

Lemma only_match_single P rows i t :
  single (select_rows P rows) = Some (i, t) → only_match P rows i t.
Proof.
  intros Hs. destruct (single_select_rows _ _ _ _ Hs) as [Hi HP].
  split; [done |]. split; [done |]. intros j u Hj HPu.
  apply single_Some in Hs.
  assert ((j, u) ∈ select_rows P rows) as Hin by (by apply elem_of_select_rows).
  rewrite Hs in Hin. apply list_elem_of_singleton in Hin. congruence.
Qed.

Lemma reserve_settle_scenario_witness :
  let e := demo_env 1000 "aa" in
  let ev := demo_event 7 "CREDIT-1000-aa" in
  let r1 := apply_credits e (demo_reserve 2500) (world_of_balance 5000) in
  let r2 := @order_webhook demo_platform 2000 ev r1.2 in
  let r3 := @order_webhook demo_platform 3000 ev r2.2 in
  fst r1 = mk_response 200 (BApplied "CREDIT-1000-aa" 2500 5000 1) ∧
  GetBalance r1.2 alice = Some 5000 ∧
  status_at r1.2 0 = Some pending ∧
  fst r2 = mk_response 200 (BFinalized "Credits finalized and deducted" 7) ∧
  GetBalance r2.2 alice = Some (5000 - 2500) ∧
  status_at r2.2 0 = Some completed ∧
  AlreadyProcessed (fst r3) ∧
  r3.2 = r2.2 ∧
  GetBalance r3.2 alice = Some (5000 - 2500).
Proof.
  intros e ev.
  apply (@reserve_settle_scenario demo_platform e (demo_reserve 2500) ev 2000 3000
           (world_of_balance 5000) alice 2500 5000 []
           {| email := "alice@example.com"; credits := 5000 |}).
  - reflexivity.
  - reflexivity.
  - reflexivity.
  - lia.
  - discriminate.
  - vm_compute. reflexivity.
  - reflexivity.
  - lia.
  - reflexivity.
  - reflexivity.
  - reflexivity.
  - intros t Hin. inversion Hin.
  - reflexivity.
  - vm_compute. reflexivity.
Defined.

Lemma one_shot_transition_witness :
  let ev := demo_event 7 "CREDIT-1000-aa" in
  let rq := demo_cancel "CREDIT-1000-aa" (Some 1%N) in
  (@transitions demo_platform 0 overspend_ops (world_of_balance 5000) ≤ 1)%nat ∧
  AlreadyProcessed
    (fst (@order_webhook demo_platform 3000 ev
            (@order_webhook demo_platform 2000 ev reserved_world).2)) ∧
  NotFound
    (fst (cancel_credits demo_cancel_env rq
            (cancel_credits demo_cancel_env rq reserved_world).2)).
Proof.
  intros ev rq.
  destruct (@one_shot_transition demo_platform 0) as (Hcount & _ & _ & Hs & Hc & _).
  split; [apply Hcount |]. split.
  - apply Hs. vm_compute. reflexivity.
  - apply Hc. intros Heq. apply (f_equal credit_transactions) in Heq.
    vm_compute in Heq. discriminate.
Defined.





Lemma reserve_insufficient_balance_witness :
  let r := apply_credits (demo_env 1000 "aa") (demo_reserve 2500)
             (world_of_balance 1000) in
  InsufficientBalance (fst r) ∧
  r.2 = world_of_balance 1000 ∧
  shopify r.2 = shopify (world_of_balance 1000) ∧
  credit_transactions r.2 = credit_transactions (world_of_balance 1000).
Proof.
  apply (reserve_insufficient_balance (demo_env 1000 "aa") (demo_reserve 2500)
           (world_of_balance 1000) alice 2500 []
           {| email := "alice@example.com"; credits := 1000 |}).
  - reflexivity.
  - reflexivity.
  - reflexivity.
  - lia.
  - discriminate.
  - vm_compute. reflexivity.
  - simpl. lia.
Defined.

(** C10, as stated, fails at -100000000.00: the request passes both checks
    and is answered 200 with a discount code, and no reservation row exists. *)
Lemma reserve_negative_overflow :
  let r := apply_credits (demo_env 1000 "aa") (demo_reserve (-10000000000))
             (world_of_balance 5000) in
  fst r = mk_response 200 (BApplied "CREDIT-1000-aa" (-10000000000) 5000 1) ∧
  credit_transactions r.2 = [].
Proof. vm_compute. split; reflexivity. Qed.

Lemma reserve_negative_amount_witness :
  let r := apply_credits (demo_env 1000 "aa") (demo_reserve (-500))
             (world_of_balance 5000) in
  http_status (fst r) = 200%nat ∧
  ∃ t, credit_transactions r.2 = (credit_transactions (world_of_balance 5000) ++ [t])%list ∧
       status t = pending ∧ amount t = -500 ∧ user_id t = alice ∧ amount t < 0.
Proof.
  intros r.
  destruct (reserve_negative_amount (demo_env 1000 "aa") (demo_reserve (-500))
              (world_of_balance 5000) alice (-500) []
              {| email := "alice@example.com"; credits := 5000 |})
    as (_ & _ & _ & Hok).
  - reflexivity.
  - reflexivity.
  - reflexivity.
  - discriminate.
  - vm_compute. reflexivity.
  - lia.
  - simpl. lia.
  - destruct (Hok eq_refl eq_refl) as (H200 & Hrow & _).
    split; [exact H200 |]. apply Hrow. lia.
Defined.

(** C8, as stated, fails: the price rule is created, the discount code is
    refused, reserve answers 500, and the price rule stays in Shopify with
    no reservation row that refers to it. *)
Lemma reserve_leaves_orphan :
  let r := apply_credits code_refused_env (demo_reserve 2500)
             (world_of_balance 5000) in
  orphaned_rules (world_of_balance 5000) = [] ∧
  fst r = mk_response 500
            (BFailure "Failed to apply credits" "Failed to create discount code") ∧
  credit_transactions r.2 = [] ∧
  orphaned_rules r.2
  = [ {| pr_id := 1; pr_title := "Store Credit - 25"; pr_value := "-25";
         pr_codes := [] |} ].
Proof. vm_compute. repeat split; reflexivity. Qed.

Lemma reserve_no_rollback_witness :
  let w := world_of_balance 5000 in
  let r := apply_credits code_refused_env (demo_reserve 2500) w in
  http_status (fst r) = 500%nat ∧
  (∃ m, body (fst r) = BFailure "Failed to apply credits" m) ∧
  credit_transactions r.2 = credit_transactions w ∧
  profiles r.2 = profiles w ∧
  price_rules (shopify r.2)
  = (price_rules (shopify w) ++
     [ {| pr_id := next_price_rule_id (shopify w);
          pr_title := "Store Credit - " +:+ show_amount 2500;
          pr_value := "-" +:+ show_amount 2500;
          pr_codes := [] |} ])%list.
Proof.
  intros w.
  apply (reserve_no_rollback code_refused_env (demo_reserve 2500) w alice 2500 []
           {| email := "alice@example.com"; credits := 5000 |}).
  - reflexivity.
  - reflexivity.
  - reflexivity.
  - lia.
  - discriminate.
  - vm_compute. reflexivity.
  - simpl. lia.
  - reflexivity.
  - discriminate.
Defined.



Lemma cancel_answers_server_error_witness :
  let rq := demo_cancel "CREDIT-1000-aa" (Some 1%N) in
  fst (cancel_credits demo_cancel_env rq reserved_world)
  = mk_response 500
      (BFailure "Failed to cancel credits" "restoredBalance is not defined") ∧
  status_at (cancel_credits demo_cancel_env rq reserved_world).2 0 = Some cancelled.
Proof.
  intros rq.
  apply (cancel_answers_server_error demo_cancel_env rq reserved_world alice
           "CREDIT-1000-aa" 0%nat
           (reserved_row (demo_env 1000 "aa") alice 2500 "CREDIT-1000-aa" 1)).
  - reflexivity.
  - reflexivity.
  - discriminate.
  - discriminate.
  - apply only_match_single. vm_compute. reflexivity.
Defined.

Lemma sweep_expired_witness :
  let now := clock_change + 12 * hour in
  let r := @cleanup_pending dst_platform now dst_world in
  let r' := @cleanup_pending demo_platform (26 * hour) sweep_world in
  (@twentyFourHoursAgo dst_platform now = now - 24 * hour - hour ∧
   created_at <$> credit_transactions dst_world !! 0%nat
   = Some (now - 24 * hour - hour / 2) ∧
   status_at dst_world 0 = Some pending ∧
   status_at r.2 0 = Some pending ∧
   cleanup_count (fst r) = Some 0%nat) ∧
  (status_at r'.2 0 = Some cancelled ∧
   credit_transactions r'.2 !! 1%nat = credit_transactions sweep_world !! 1%nat ∧
   cleanup_count (fst r') = Some 1%nat).
Proof.
  intros now r r'. split.
  - destruct (@sweep_expired dst_platform now dst_world)
      as (_ & _ & _ & _ & Hcount & _ & Hgap).
    split; [vm_compute; reflexivity |]. split; [vm_compute; reflexivity |].
    split; [vm_compute; reflexivity |]. split.
    + apply (Hgap hour 0%nat
               (reserved_row (demo_env (clock_change - 12 * hour - hour / 2) "aa")
                  alice 1000 "CREDIT-315000000-aa" 1)).
      * vm_compute. reflexivity.
      * vm_compute. reflexivity.
      * reflexivity.
      * vm_compute. discriminate.
      * vm_compute. reflexivity.
    + unfold r. rewrite Hcount. vm_compute. reflexivity.
  - destruct (@sweep_expired demo_platform (26 * hour) sweep_world)
      as (_ & _ & _ & _ & Hcount & Hclaim & _).
    assert (@twentyFourHoursAgo demo_platform (26 * hour) = 26 * hour - 24 * hour)
      as Hcut by (vm_compute; reflexivity).
    split; [| split].
    + apply (Hclaim Hcut 0%nat
               (reserved_row (demo_env hour "aa") alice 1000 "CREDIT-3600000-aa" 1)).
      * vm_compute. reflexivity.
      * reflexivity.
      * vm_compute. reflexivity.
    + unfold r'.
      rewrite (proj2 (Hclaim Hcut 1%nat
                 (reserved_row (demo_env (25 * hour) "bb") alice 1000
                    "CREDIT-90000000-bb" 2) ltac:(vm_compute; reflexivity) eq_refl)).
      * vm_compute. reflexivity.
      * vm_compute. discriminate.
    + unfold r'. rewrite Hcount. vm_compute. reflexivity.
Defined.

(** * Further properties of the handlers *)

(** ** apply-credits of the server *)

Lemma prefix_credit (x : string) : String.prefix "CREDIT-" ("CREDIT-" +:+ x) = true.
Proof. simpl. by destruct x. Qed.

Lemma make_discount_code_credit e :
  is_credit_discount {| dc_code := Some (make_discount_code e); dc_amount := "" |} = true.
Proof.
  unfold is_credit_discount, make_discount_code. simpl.
  match goal with |- String.prefix _ ?s = true => by destruct s end.
Qed.

(** X1. The validation of apply-credits refuses exactly the requests in which
    creditAmount is absent or 0, userId is absent or empty, or cartItems is
    absent (an empty cart passes); a refused request changes nothing. *)
Theorem apply_credits_missing_fields (e : apply_env) (req : apply_request) (w : world) :
  (fst (apply_credits e req w)
   = mk_response 400 (BError "Missing required fields: creditAmount, userId, cartItems")
   ↔ creditAmount req = None ∨ creditAmount req = Some 0 ∨
     userId req = None ∨ userId req = Some "" ∨ cartItems req = None) ∧
  (fst (apply_credits e req w)
   = mk_response 400 (BError "Missing required fields: creditAmount, userId, cartItems")
   → (apply_credits e req w).2 = w).
Proof.
  unfold apply_credits.
  destruct (creditAmount req) as [amt|];
    [| simpl; split; [split; [intros _; auto 6 | done] | done]].
  destruct (userId req) as [uid|];
    [| simpl; rewrite orb_true_r; simpl;
       split; [split; [intros _; auto 6 | done] | done]].
  destruct (cartItems req) as [items|];
    [| simpl; rewrite orb_true_r; simpl;
       split; [split; [intros _; auto 6 | done] | done]].
  simpl. rewrite orb_false_r.
  destruct (Z.eqb_spec amt 0) as [-> | Hamt]; simpl;
    [split; [split; [intros _; auto 6 | done] | done] |].
  destruct (String.eqb_spec uid "") as [-> | Huid]; simpl;
    [split; [split; [intros _; auto 6 | done] | done] |].
  split; [split |].
  - repeat case_match; simpl; intros; simplify_eq.
  - intros [? | [? | [? | [? | ?]]]]; simplify_eq.
  - repeat case_match; simpl; intros; simplify_eq.
Qed.

(** X2. apply-credits changes the table only together with a 200, and
    then by appending one pending row of the requested amount and user under
    the code it returns. The handler does not read what the insert answers:
    a 200 comes with that row when the amount fits DECIMAL(10, 2), and with
    an unchanged table when it does not. A 400 or a 404 leaves the whole
    store as before, and no answer comes with a change of a balance. *)
Theorem apply_credits_outcome (e : apply_env) (req : apply_request) (w : world) :
  (credit_transactions (apply_credits e req w).2 ≠ credit_transactions w →
   http_status (fst (apply_credits e req w)) = 200%nat) ∧
  (http_status (fst (apply_credits e req w)) = 200%nat →
   ∃ amt uid,
     creditAmount req = Some amt ∧ userId req = Some uid ∧
     (fits_decimal_10_2 amt = true →
      ∃ t, credit_transactions (apply_credits e req w).2
           = (credit_transactions w ++ [t])%list ∧
           status t = pending ∧ amount t = amt ∧ user_id t = uid ∧
           discount_code t = Some (make_discount_code e)) ∧
     (fits_decimal_10_2 amt = false →
      credit_transactions (apply_credits e req w).2 = credit_transactions w)) ∧
  (http_status (fst (apply_credits e req w)) = 400%nat ∨
   http_status (fst (apply_credits e req w)) = 404%nat →
   (apply_credits e req w).2 = w) ∧
  profiles (apply_credits e req w).2 = profiles w.
Proof.
  unfold apply_credits, insert_transaction.
  repeat case_match; simpl in *; split_and!; try done; try (by intros [? | ?]);
    intros _; eexists _, _; (split; [done |]); (split; [done |]);
    simplify_eq; split; intros Hfit; try congruence; by eexists.
Qed.

(** X3. For a well-formed request of an existing account and with Shopify
    accepting both calls, apply-credits answers 200 exactly when the amount is
    at most the balance; the whole balance can be reserved. *)
Theorem apply_credits_succeeds_iff
  (e : apply_env) (req : apply_request) (w : world)
  (uid : string) (amt : Z) (items : list cart_item) (p : profile) :
  creditAmount req = Some amt → userId req = Some uid →
  cartItems req = Some items → amt ≠ 0 → uid ≠ "" →
  profiles w !! uid = Some p →
  price_rule_fetch e = HttpOk → discount_code_fetch e = HttpOk →
  (http_status (fst (apply_credits e req w)) = 200%nat ↔ amt ≤ credits p) ∧
  (amt = credits p → http_status (fst (apply_credits e req w)) = 200%nat).
Proof.
  intros Ha Hu Hc Hamt Huid Hp Hrule Hcode.
  rewrite (apply_credits_valid e req w uid amt items p) by done.
  rewrite Hrule, Hcode.
  destruct (Z.ltb_spec (credits p) amt); simpl; split; try split; try done; lia.
Qed.

Lemma apply_credits_succeeds_iff_witness :
  (http_status (fst (apply_credits (demo_env 1000 "aa") (demo_reserve 5000)
                       (world_of_balance 5000))) = 200%nat ↔ 5000 ≤ 5000) ∧
  (5000 = 5000 →
   http_status (fst (apply_credits (demo_env 1000 "aa") (demo_reserve 5000)
                       (world_of_balance 5000))) = 200%nat).
Proof.
  apply (apply_credits_succeeds_iff (demo_env 1000 "aa") (demo_reserve 5000)
           (world_of_balance 5000) alice 5000 []
           {| email := "alice@example.com"; credits := 5000 |}).
  - reflexivity.
  - reflexivity.
  - reflexivity.
  - lia.
  - discriminate.
  - vm_compute. reflexivity.
  - reflexivity.
  - reflexivity.
Defined.

Lemma find_skips (f : discount_entry → bool) pre dc post :
  (∀ x, x ∈ pre → f x = false) → f dc = true →
  List.find f (pre ++ dc :: post) = Some dc.
Proof.
  induction pre as [|a pre IH]; intros Hpre Hdc; simpl.
  - by rewrite Hdc.
  - rewrite (Hpre a) by left. apply IH; [| done]. intros x Hx. apply Hpre. by right.
Qed.

(** X4. The webhook recognises every code that apply-credits generates: in
    an order whose applied discount codes start with entries that have no
    code or a code without the prefix CREDIT-, followed by an entry with a
    generated code, that code is the one the webhook looks up, whatever
    entries come after it. *)
Theorem generated_code_is_found
  (e : apply_env) (o : order) (pre post : list discount_entry) (a : string) :
  (∀ x, x ∈ pre → is_credit_discount x = false) →
  o_discount_codes o
  = Some (pre ++ {| dc_code := Some (make_discount_code e); dc_amount := a |}
                 :: post)%list →
  find_credit_discount o = Some (make_discount_code e).
Proof.
  intros Hpre Ho. unfold find_credit_discount. rewrite Ho. simpl.
  rewrite (find_skips _ pre _ post); [done | done |].
  unfold is_credit_discount, make_discount_code. simpl.
  match goal with |- String.prefix _ ?s = true => by destruct s end.
Qed.

Lemma generated_code_is_found_witness :
  find_credit_discount
    {| o_id := 7; o_order_number := 1007;
       o_discount_codes :=
         Some [ {| dc_code := Some "SUMMER10"; dc_amount := "10.00" |};
                {| dc_code := None; dc_amount := "" |};
                {| dc_code := Some "CREDIT-1000-aa"; dc_amount := "25.00" |};
                {| dc_code := Some "CREDIT-2000-bb"; dc_amount := "5.00" |} ] |}
  = Some "CREDIT-1000-aa".
Proof.
  apply (generated_code_is_found (demo_env 1000 "aa") _
           [ {| dc_code := Some "SUMMER10"; dc_amount := "10.00" |};
             {| dc_code := None; dc_amount := "" |} ]
           [ {| dc_code := Some "CREDIT-2000-bb"; dc_amount := "5.00" |} ] "25.00").
  - intros x Hx. apply list_elem_of_In in Hx.
    destruct Hx as [<- | [<- | []]]; reflexivity.
  - reflexivity.
Defined.

(** X5. A successful apply-credits of an amount that fits DECIMAL(10, 2)
    leaves Shopify and the table tied together: the last price rule of the
    shop is the one whose id the response returns, its value is the text of
    the amount with a minus sign, its only discount code is the returned
    code, and the appended row carries that code and the id of that price
    rule. *)
Theorem apply_credits_links_rule_and_row
  (e : apply_env) (req : apply_request) (w : world)
  (uid : string) (amt : Z) (items : list cart_item) (p : profile) :
  creditAmount req = Some amt → userId req = Some uid →
  cartItems req = Some items → amt ≠ 0 → uid ≠ "" →
  profiles w !! uid = Some p → amt ≤ credits p →
  fits_decimal_10_2 amt = true →
  price_rule_fetch e = HttpOk → discount_code_fetch e = HttpOk →
  let id := next_price_rule_id (shopify w) in
  let c := make_discount_code e in
  fst (apply_credits e req w) = mk_response 200 (BApplied c amt (credits p) id) ∧
  last (price_rules (shopify (apply_credits e req w).2))
  = Some {| pr_id := id; pr_title := "Store Credit - " +:+ show_amount amt;
            pr_value := "-" +:+ show_amount amt; pr_codes := [c] |} ∧
  (∃ t, last (credit_transactions (apply_credits e req w).2) = Some t ∧
        discount_code t = Some c ∧ price_rule_id t = Some (pretty id) ∧
        user_id t = uid ∧ amount t = amt ∧ status t = pending) ∧
  next_price_rule_id (shopify (apply_credits e req w).2) = N.succ id.
Proof.
  intros Ha Hu Hc Hamt Huid Hp Hle Hfit Hrule Hcode id c.
  rewrite (apply_credits_valid e req w uid amt items p) by done.
  assert ((credits p <? amt) = false) as -> by (apply Z.ltb_ge; lia).
  assert (amount_text e amt = show_amount amt) as Htext.
  { unfold amount_text, number_text, fits_decimal_10_2 in *.
    apply Z.ltb_lt in Hfit.
    assert ((Z.abs amt <? 10 ^ 15) = true) as -> by (apply Z.ltb_lt; lia). done. }
  rewrite Hrule, Hcode. unfold insert_transaction. simpl. rewrite Hfit, Htext. simpl.
  split_and!; [done | | | done].
  - rewrite fmap_app. simpl. rewrite last_snoc.
    unfold add_code. simpl. by rewrite N.eqb_refl.
  - eexists. rewrite last_snoc. done.
Qed.

Lemma apply_credits_links_rule_and_row_witness :
  let r := apply_credits (demo_env 1000 "aa") (demo_reserve 2500)
             (world_of_balance 5000) in
  fst r = mk_response 200 (BApplied "CREDIT-1000-aa" 2500 5000 1) ∧
  last (price_rules (shopify r.2))
  = Some {| pr_id := 1; pr_title := "Store Credit - 25";
            pr_value := "-25"; pr_codes := ["CREDIT-1000-aa"] |} ∧
  (∃ t, last (credit_transactions r.2) = Some t ∧
        discount_code t = Some "CREDIT-1000-aa" ∧ price_rule_id t = Some "1" ∧
        user_id t = alice ∧ amount t = 2500 ∧ status t = pending) ∧
  next_price_rule_id (shopify r.2) = 2%N.
Proof.
  apply (apply_credits_links_rule_and_row (demo_env 1000 "aa") (demo_reserve 2500)
           (world_of_balance 5000) alice 2500 []
           {| email := "alice@example.com"; credits := 5000 |}).
  - reflexivity.
  - reflexivity.
  - reflexivity.
  - lia.
  - discriminate.
  - vm_compute. reflexivity.
  - simpl. lia.
  - reflexivity.
  - reflexivity.
  - reflexivity.
Defined.

(** X6. The answer of apply-credits does not depend on the reservations
    that exist: on two stores with the same profiles the status of the answer
    is the same, whatever rows are pending in either. Pending reservations
    are not counted against the balance. *)
Theorem apply_credits_ignores_reservations
  (e : apply_env) (req : apply_request) (w1 w2 : world) :
  profiles w1 = profiles w2 →
  http_status (fst (apply_credits e req w1))
  = http_status (fst (apply_credits e req w2)).
Proof.
  intros Hp. unfold apply_credits. rewrite Hp.
  repeat case_match; simpl; simplify_eq; done.
Qed.

Lemma apply_credits_ignores_reservations_witness :
  http_status (fst (apply_credits (demo_env 2000 "bb") (demo_reserve 3000)
                      reserved_world))
  = http_status (fst (apply_credits (demo_env 2000 "bb") (demo_reserve 3000)
                        (world_of_balance 5000))).
Proof.
  apply (apply_credits_ignores_reservations (demo_env 2000 "bb") (demo_reserve 3000)
           reserved_world (world_of_balance 5000)).
  reflexivity.
Defined.

(** ** order-webhook of the server *)

Lemma single_two_None {A} (l : list A) x y :
  x ∈ l → y ∈ l → x ≠ y → single l = None.
Proof.
  intros Hx Hy Hne. destruct (single l) as [z|] eqn:Hs; [| done].
  apply single_Some in Hs. subst.
  apply list_elem_of_singleton in Hx, Hy. congruence.
Qed.

Section Webhook.
Context `{Platform}.

(** X7. order-webhook changes the store only for an event whose signature
    header equals the MAC of the body and whose first credit code belongs to
    exactly one pending reservation; the answer is then "Credits finalized
    and deducted". A forged or unsigned event, an order without credit code
    and an unknown code leave the store as it is. *)
Theorem webhook_change_requires (now : Z) (req : webhook_request) (w : world) :
  (order_webhook now req w).2 ≠ w →
  hmac_header req = Some (compute_hash (order_body req)) ∧
  ∃ c i t,
    find_credit_discount (order_body req) = Some c ∧
    only_match (λ t, has_code c t && is_pending t) (credit_transactions w) i t ∧
    fst (order_webhook now req w)
    = mk_response 200
        (BFinalized "Credits finalized and deducted" (o_id (order_body req))).
Proof.
  unfold order_webhook.
  destruct (bool_decide (_ = hmac_header req)) eqn:Hmac; simpl; [| done].
  apply bool_decide_eq_true in Hmac.
  destruct (find_credit_discount (order_body req)) as [c|]; [| done].
  destruct (single _) as [[i t]|] eqn:Hs; [| done].
  intros _. split; [done |]. exists c, i, t.
  split; [done |]. split; [by apply only_match_single | done].
Qed.

(** X8. When two pending reservations carry the code of the event, the
    lookup with [.single()] yields no row: the webhook answers "Transaction
    already processed", debits nobody and leaves both reservations pending. *)
Theorem webhook_ambiguous_code
  (now : Z) (req : webhook_request) (w : world) (c : string)
  (i j : nat) (t u : transaction) :
  hmac_header req = Some (compute_hash (order_body req)) →
  find_credit_discount (order_body req) = Some c →
  credit_transactions w !! i = Some t → credit_transactions w !! j = Some u →
  i ≠ j →
  status t = pending → status u = pending →
  discount_code t = Some c → discount_code u = Some c →
  AlreadyProcessed (fst (order_webhook now req w)) ∧
  (order_webhook now req w).2 = w.
Proof.
  intros Hmac Hc Hi Hj Hne Hst Hsu Hct Hcu.
  unfold order_webhook. rewrite Hmac, bool_decide_eq_true_2 by done. simpl.
  rewrite Hc.
  rewrite (single_two_None _ (i, t) (j, u)); [done | | | congruence].
  - apply elem_of_select_rows. split; [done |]. unfold has_code, is_pending.
    by rewrite !bool_decide_eq_true_2.
  - apply elem_of_select_rows. split; [done |]. unfold has_code, is_pending.
    by rewrite !bool_decide_eq_true_2.
Qed.

(** X9. A balance changes under order-webhook only for the owner of the
    reservation that the event completes, and then by exactly the amount of
    that reservation; the balance of every other account is as before. *)
Theorem webhook_debits_the_owner
  (now : Z) (req : webhook_request) (w : world) (u : string) :
  GetBalance (order_webhook now req w).2 u ≠ GetBalance w u →
  ∃ i t, credit_transactions w !! i = Some t ∧ status t = pending ∧
         user_id t = u ∧
         status_at (order_webhook now req w).2 i = Some completed ∧
         GetBalance (order_webhook now req w).2 u
         = (λ b, b - amount t) <$> GetBalance w u.
Proof.
  destruct (order_webhook_store now req w) as [-> | (i & t & Hi & Ht & Hrows & Hps)];
    [done |].
  unfold GetBalance, status_at. rewrite Hps, Hrows. unfold debit_profile.
  intros Hne. exists i, t.
  destruct (profiles w !! user_id t) as [p|] eqn:Hp; [| done].
  destruct (decide (user_id t = u)) as [<- | Hother].
  - rewrite list_lookup_alter_eq, Hi, lookup_insert_eq, Hp. done.
  - by rewrite lookup_insert_ne in Hne.
Qed.

End Webhook.

Lemma webhook_change_requires_witness :
  let ev := demo_event 7 "CREDIT-1000-aa" in
  hmac_header ev = Some (@compute_hash demo_platform (order_body ev)) ∧
  ∃ c i t,
    find_credit_discount (order_body ev) = Some c ∧
    only_match (λ t, has_code c t && is_pending t)
      (credit_transactions reserved_world) i t ∧
    fst (@order_webhook demo_platform 2000 ev reserved_world)
    = mk_response 200 (BFinalized "Credits finalized and deducted" 7).
Proof.
  intros ev.
  apply (@webhook_change_requires demo_platform 2000 ev reserved_world).
  intros Heq. apply (f_equal credit_transactions) in Heq.
  vm_compute in Heq. discriminate.
Defined.

Lemma webhook_ambiguous_code_witness :
  let ev := demo_event 7 "CREDIT-1000-aa" in
  AlreadyProcessed (fst (@order_webhook demo_platform 2000 ev clashing_world)) ∧
  (@order_webhook demo_platform 2000 ev clashing_world).2 = clashing_world.
Proof.
  intros ev.
  apply (@webhook_ambiguous_code demo_platform 2000 ev clashing_world
           "CREDIT-1000-aa" 0%nat 1%nat
           (reserved_row (demo_env 1000 "aa") alice 2000 "CREDIT-1000-aa" 1)
           (reserved_row (demo_env 1000 "aa") alice 1000 "CREDIT-1000-aa" 2)).
  - reflexivity.
  - vm_compute. reflexivity.
  - vm_compute. reflexivity.
  - vm_compute. reflexivity.
  - lia.
  - reflexivity.
  - reflexivity.
  - reflexivity.
  - reflexivity.
Defined.

Lemma webhook_debits_the_owner_witness :
  let ev := demo_event 7 "CREDIT-2000-bb" in
  ∃ i t, credit_transactions two_reserved !! i = Some t ∧ status t = pending ∧
         user_id t = bob ∧
         status_at (@order_webhook demo_platform 3000 ev two_reserved).2 i
         = Some completed ∧
         GetBalance (@order_webhook demo_platform 3000 ev two_reserved).2 bob
         = (λ b, b - amount t) <$> GetBalance two_reserved bob.
Proof.
  intros ev.
  apply (@webhook_debits_the_owner demo_platform 3000 ev two_reserved bob).
  vm_compute. discriminate.
Defined.

(** ** cancel-credits and cleanup-pending of the server *)

Lemma only_match_owned uid c rows i t :
  only_match (λ t, has_code c t && is_pending t) rows i t →
  user_id t = uid →
  only_match (λ t, owned_by uid t && has_code c t && is_pending t) rows i t.
Proof.
  intros (Hi & HP & Huniq) Hu. split; [done |]. split.
  - unfold owned_by. rewrite Hu, String.eqb_refl. done.
  - intros j u Hj HPu. apply (Huniq j u Hj).
    apply andb_true_iff in HPu as [HPu Hpend].
    apply andb_true_iff in HPu as [_ Hcode]. by rewrite Hcode, Hpend.
Qed.

Section CancelAndSweep.
Context `{Platform}.

(** X10. A reservation that was cancelled cannot be settled: after
    cancel-credits found the only pending reservation of a code, a correctly
    signed payment event for that code is answered "Transaction already
    processed" and debits nothing. *)
Theorem cancel_then_settle
  (e : cancel_env) (creq : cancel_request) (now : Z) (ev : webhook_request)
  (w : world) (uid c : string) (i : nat) (t : transaction) :
  cancel_userId creq = Some uid → cancel_discountCode creq = Some c →
  uid ≠ "" → c ≠ "" →
  only_match (λ t, has_code c t && is_pending t) (credit_transactions w) i t →
  user_id t = uid →
  hmac_header ev = Some (compute_hash (order_body ev)) →
  find_credit_discount (order_body ev) = Some c →
  let w1 := (cancel_credits e creq w).2 in
  status_at w1 i = Some cancelled ∧
  AlreadyProcessed (fst (order_webhook now ev w1)) ∧
  (order_webhook now ev w1).2 = w1 ∧
  profiles (order_webhook now ev w1).2 = profiles w.
Proof.
  intros Hu Hc Huid Hcode Hm Hown Hmac Hfind w1.
  pose proof (only_match_owned uid c _ i t Hm Hown) as Hm3.
  unfold w1. rewrite (cancel_credits_found e creq w uid c i t) by done.
  pose proof Hm as (Hi & _ & _). apply single_only_match in Hm.
  unfold order_webhook. rewrite Hmac, bool_decide_eq_true_2 by done. simpl.
  rewrite Hfind.
  rewrite (select_rows_alter_done _ _ _ _ _ Hm);
    [| apply andb_false_iff; right; by apply bool_decide_eq_false].
  simpl. split_and!; try done.
  unfold status_at. simpl. by rewrite list_lookup_alter_eq, Hi.
Qed.

(** X11. A reservation that the sweep released cannot be settled: when the
    only pending reservation of a code was created before the cut-off of the
    sweep (the instant at which the local clock of the server read 24 hours
    less), a payment event for that code that arrives after the sweep is
    answered "Transaction already processed" and debits nothing. *)
Theorem sweep_then_settle
  (sweep_time now : Z) (ev : webhook_request)
  (w : world) (c : string) (i : nat) (t : transaction) :
  only_match (λ t, has_code c t && is_pending t) (credit_transactions w) i t →
  created_at t < twentyFourHoursAgo sweep_time →
  hmac_header ev = Some (compute_hash (order_body ev)) →
  find_credit_discount (order_body ev) = Some c →
  let w1 := (cleanup_pending sweep_time w).2 in
  status_at w1 i = Some cancelled ∧
  AlreadyProcessed (fst (order_webhook now ev w1)) ∧
  (order_webhook now ev w1).2 = w1 ∧
  profiles (order_webhook now ev w1).2 = profiles w.
Proof.
  intros (Hi & HP & Huniq) Hold Hmac Hfind w1.
  apply andb_true_iff in HP as [Hcode Hpend]. apply is_pending_true in Hpend.
  assert (select_rows (λ t, has_code c t && is_pending t)
            (credit_transactions w1) = []) as Hnone.
  { apply select_rows_nil. intros u' Hin.
    apply list_elem_of_lookup in Hin as [j Hj].
    unfold w1 in Hj. rewrite cleanup_pending_rows, list_lookup_fmap in Hj.
    destruct (credit_transactions w !! j) as [u|] eqn:Hu; simpl in Hj; [| done].
    simplify_eq.
    destruct (is_old_pending _ u) eqn:Hou.
    - apply andb_false_iff. right. by apply bool_decide_eq_false.
    - destruct (has_code c u && is_pending u) eqn:HPu; [| done].
      specialize (Huniq j u Hu HPu). subst j. simplify_eq.
      unfold is_old_pending, is_pending in Hou.
      rewrite bool_decide_eq_true_2 in Hou by done.
      apply Z.ltb_lt in Hold. rewrite Hold in Hou. done. }
  unfold order_webhook. rewrite Hmac, bool_decide_eq_true_2 by done. simpl.
  rewrite Hfind, Hnone. simpl. split_and!; try done.
  - unfold status_at, w1. by rewrite (cleanup_pending_old _ _ i t).
  - apply cleanup_pending_store.
Qed.

(** X12. cancel-credits acts for the owner only: when no pending
    reservation with the given code belongs to the given user (it belongs to
    somebody else, is already closed, or does not exist), the answer is 404
    "Transaction not found" and the store, Shopify included, is as before,
    whatever priceRuleId the request names. *)
Theorem cancel_not_owner
  (e : cancel_env) (req : cancel_request) (w : world) (uid c : string) :
  cancel_userId req = Some uid → cancel_discountCode req = Some c →
  uid ≠ "" → c ≠ "" →
  (∀ i t, credit_transactions w !! i = Some t →
          status t = pending → discount_code t = Some c → user_id t ≠ uid) →
  NotFound (fst (cancel_credits e req w)) ∧ (cancel_credits e req w).2 = w.
Proof.
  intros Hu Hc Huid Hcode Hnone. unfold cancel_credits. rewrite Hu, Hc. simpl.
  apply String.eqb_neq in Huid, Hcode. rewrite Huid, Hcode. simpl.
  rewrite select_rows_nil; [done |].
  intros t Hin. apply list_elem_of_lookup in Hin as [i Hi].
  destruct (owned_by uid t && has_code c t && is_pending t) eqn:HP; [| done].
  apply andb_true_iff in HP as [HP Hpend]. apply andb_true_iff in HP as [Hown Hcd].
  apply is_pending_true in Hpend. apply bool_decide_eq_true in Hcd.
  apply String.eqb_eq in Hown. by destruct (Hnone i t Hi Hpend Hcd).
Qed.

(** X13. The clean-up of cancel-credits is best effort and goes by the
    request: once the reservation is found it is cancelled whatever Shopify
    answers; the price rule that is deleted is the one whose id the request
    names, all other rules stay; and when the request names no rule, or the
    DELETE fails, the price rules are as before. *)
Theorem cancel_cleanup_by_request
  (e : cancel_env) (req : cancel_request) (w : world)
  (uid c : string) (i : nat) (t : transaction) :
  cancel_userId req = Some uid → cancel_discountCode req = Some c →
  uid ≠ "" → c ≠ "" →
  only_match (λ t, owned_by uid t && has_code c t && is_pending t)
    (credit_transactions w) i t →
  let w1 := (cancel_credits e req w).2 in
  status_at w1 i = Some cancelled ∧
  (∀ k, cancel_priceRuleId req = Some k → k ≠ 0%N → delete_fetch e = HttpOk →
        has_rule k (shopify w1) = false ∧
        ∀ r, pr_id r ≠ k → (r ∈ price_rules (shopify w1) ↔ r ∈ price_rules (shopify w))) ∧
  (cancel_priceRuleId req = None ∨ cancel_priceRuleId req = Some 0%N ∨
   delete_fetch e ≠ HttpOk → shopify w1 = shopify w).
Proof.
  intros Hu Hc Huid Hcode Hm w1. unfold w1.
  rewrite (cancel_credits_found e req w uid c i t) by done.
  destruct Hm as (Hi & _ & _). simpl. split_and!.
  - unfold status_at. simpl. by rewrite list_lookup_alter_eq, Hi.
  - intros k Hk Hk0 Hdel. rewrite Hk, Hdel. unfold cleanup_price_rule. simpl.
    apply N.eqb_neq in Hk0. rewrite Hk0. simpl. split.
    + unfold has_rule, delete_price_rule. simpl.
      induction (price_rules (shopify w)) as [|r rs IH]; simpl; [done |].
      destruct (N.eqb (pr_id r) k) eqn:Hr; simpl; [done |]. by rewrite Hr.
    + intros r Hr. rewrite !list_elem_of_In, filter_In, <- !list_elem_of_In.
      apply N.eqb_neq in Hr. rewrite Hr. simpl. tauto.
  - unfold cleanup_price_rule. intros [-> | [-> | Hdel]]; simpl; try done.
    destruct (truthy_id _); [| done]. by destruct (delete_fetch e).
Qed.

End CancelAndSweep.

Lemma cancel_then_settle_witness :
  let w1 := (cancel_credits demo_cancel_env (demo_cancel "CREDIT-1000-aa" (Some 1%N))
               reserved_world).2 in
  let ev := demo_event 7 "CREDIT-1000-aa" in
  status_at w1 0 = Some cancelled ∧
  AlreadyProcessed (fst (@order_webhook demo_platform 9000 ev w1)) ∧
  (@order_webhook demo_platform 9000 ev w1).2 = w1 ∧
  profiles (@order_webhook demo_platform 9000 ev w1).2 = profiles reserved_world.
Proof.
  apply (@cancel_then_settle demo_platform demo_cancel_env
           (demo_cancel "CREDIT-1000-aa" (Some 1%N)) 9000
           (demo_event 7 "CREDIT-1000-aa") reserved_world alice "CREDIT-1000-aa" 0%nat
           (reserved_row (demo_env 1000 "aa") alice 2500 "CREDIT-1000-aa" 1)).
  - reflexivity.
  - reflexivity.
  - discriminate.
  - discriminate.
  - apply only_match_single. vm_compute. reflexivity.
  - reflexivity.
  - reflexivity.
  - vm_compute. reflexivity.
Defined.

Lemma sweep_then_settle_witness :
  let w1 := (@cleanup_pending demo_platform (26 * hour) sweep_world).2 in
  let ev := demo_event 7 "CREDIT-3600000-aa" in
  status_at w1 0 = Some cancelled ∧
  AlreadyProcessed (fst (@order_webhook demo_platform (27 * hour) ev w1)) ∧
  (@order_webhook demo_platform (27 * hour) ev w1).2 = w1 ∧
  profiles (@order_webhook demo_platform (27 * hour) ev w1).2 = profiles sweep_world.
Proof.
  apply (@sweep_then_settle demo_platform (26 * hour) (27 * hour)
           (demo_event 7 "CREDIT-3600000-aa") sweep_world "CREDIT-3600000-aa" 0%nat
           (reserved_row (demo_env hour "aa") alice 1000 "CREDIT-3600000-aa" 1)).
  - apply only_match_single. vm_compute. reflexivity.
  - vm_compute. reflexivity.
  - reflexivity.
  - vm_compute. reflexivity.
Defined.

Lemma cancel_not_owner_witness :
  let rq := {| cancel_userId := Some bob;
               cancel_discountCode := Some "CREDIT-1000-aa";
               cancel_priceRuleId := Some 1%N |} in
  NotFound (fst (cancel_credits demo_cancel_env rq two_reserved)) ∧
  (cancel_credits demo_cancel_env rq two_reserved).2 = two_reserved.
Proof.
  intros rq.
  apply (cancel_not_owner demo_cancel_env rq two_reserved bob "CREDIT-1000-aa").
  - reflexivity.
  - reflexivity.
  - discriminate.
  - discriminate.
  - intros i t Hi Hs Hc.
    destruct i as [|[|i]]; vm_compute in Hi; simplify_eq; vm_compute; discriminate.
Defined.

Lemma cancel_cleanup_by_request_witness :
  let rq := demo_cancel "CREDIT-1000-aa" (Some 2%N) in
  let w1 := (cancel_credits demo_cancel_env rq two_reserved).2 in
  status_at w1 0 = Some cancelled ∧
  (∀ k, cancel_priceRuleId rq = Some k → k ≠ 0%N → delete_fetch demo_cancel_env = HttpOk →
        has_rule k (shopify w1) = false ∧
        ∀ r, pr_id r ≠ k →
             (r ∈ price_rules (shopify w1) ↔ r ∈ price_rules (shopify two_reserved))) ∧
  (cancel_priceRuleId rq = None ∨ cancel_priceRuleId rq = Some 0%N ∨
   delete_fetch demo_cancel_env ≠ HttpOk → shopify w1 = shopify two_reserved).
Proof.
  intros rq.
  apply (cancel_cleanup_by_request demo_cancel_env rq two_reserved alice
           "CREDIT-1000-aa" 0%nat
           (reserved_row (demo_env 1000 "aa") alice 2500 "CREDIT-1000-aa" 1)).
  - reflexivity.
  - reflexivity.
  - discriminate.
  - discriminate.
  - apply only_match_single. vm_compute. reflexivity.
Defined.

(** ** What every sequence of operations keeps *)

Lemma row_evolves_identity t t' : row_evolves t t' → same_identity t t'.
Proof. intros []; by repeat split. Qed.

Lemma row_evolves_consistent t t' :
  row_evolves t t' → row_consistent t → row_consistent t'.
Proof.
  intros [| now o Hs | now Hs]; [done | |]; unfold row_consistent; rewrite Hs; simpl;
    intros (? & ? & ?); by repeat split.
Qed.

Lemma apply_credits_rows e req w :
  credit_transactions (apply_credits e req w).2 = credit_transactions w ∨
  ∃ uid amt id,
    credit_transactions (apply_credits e req w).2
    = (credit_transactions w
       ++ [reserved_row e uid amt (make_discount_code e) id])%list.
Proof.
  unfold apply_credits, insert_transaction. repeat case_match; simpl; try (by left).
  right. by eexists _, _, _.
Qed.

Section Runs.
Context `{Platform}.

Lemma step_length o w :
  List.length (credit_transactions (step o w).2) = List.length (credit_transactions w) ∨
  (is_reserve o = true ∧
   List.length (credit_transactions (step o w).2)
   = S (List.length (credit_transactions w))).
Proof.
  destruct o as [e req | now req | e req | now]; simpl.
  - destruct (apply_credits_rows e req w) as [-> | (uid & amt & id & ->)]; [by left |].
    right. split; [done |]. rewrite length_app. simpl. lia.
  - left. destruct (order_webhook_store now req w) as [-> | (i & t & _ & _ & -> & _)];
      [done | by rewrite length_alter].
  - left. destruct (cancel_credits_store e req w) as (_ & [-> | (i & t & _ & _ & ->)]);
      [done | by rewrite length_alter].
  - left. by rewrite cleanup_pending_rows, length_fmap.
Qed.

Lemma step_emails o w u :
  email <$> profiles (step o w).2 !! u = email <$> profiles w !! u.
Proof.
  destruct o as [e req | now req | e req | now]; simpl.
  - by destruct (apply_credits_store e req w) as (-> & _).
  - destruct (order_webhook_store now req w) as [-> | (i & t & _ & _ & _ & ->)];
      [done |].
    unfold debit_profile. destruct (profiles w !! user_id t) as [p|] eqn:Hp; [| done].
    destruct (decide (user_id t = u)) as [<- | Hne].
    + by rewrite lookup_insert_eq, Hp.
    + by rewrite lookup_insert_ne.
  - by destruct (cancel_credits_store e req w) as (-> & _).
  - by destruct (cleanup_pending_store now w) as (-> & _).
Qed.

Lemma step_consistent o w :
  Forall row_consistent (credit_transactions w) →
  Forall row_consistent (credit_transactions (step o w).2).
Proof.
  intros Hall. apply Forall_lookup. intros i t' Hi'.
  destruct (credit_transactions w !! i) as [t|] eqn:Hi.
  - destruct (step_row o w i t Hi) as (t2 & Hi2 & Hev). simplify_eq.
    eapply row_evolves_consistent; [done |].
    by eapply (proj1 (Forall_lookup _ _) Hall).
  - apply lookup_ge_None in Hi. pose proof (lookup_lt_Some _ _ _ Hi') as Hlt.
    destruct (step_length o w) as [Hlen | [Hres _]]; [lia |].
    destruct o as [e req | now req | e req | now]; try done.
    simpl in *.
    destruct (apply_credits_rows e req w) as [Heq | (uid & amt & id & Heq)];
      rewrite Heq in Hi', Hlt; [lia |].
    rewrite lookup_app_r in Hi' by done.
    destruct (i - List.length (credit_transactions w))%nat; simpl in Hi'; [| done].
    simplify_eq. by repeat split.
Qed.

(** X14. The columns of a reservation that are written at its creation
    (owner, amount, type, discount code, price rule, description, creation
    time) are never rewritten: after any sequence of reserve, settle, cancel
    and sweep operations the row is still there with the same values. *)
Theorem row_identity_preserved (ops : list op) (w : world) (i : nat) (t : transaction) :
  credit_transactions w !! i = Some t →
  ∃ t', credit_transactions (run ops w) !! i = Some t' ∧ same_identity t t'.
Proof.
  revert w t. induction ops as [|o ops IH]; intros w t Hi; simpl.
  - exists t. split; [done |]. by repeat split.
  - destruct (step_row o w i t Hi) as (t1 & Hi1 & Hev).
    destruct (IH _ _ Hi1) as (t2 & Hi2 & Hid2).
    exists t2. split; [done |].
    apply row_evolves_identity in Hev.
    unfold same_identity in *. intuition congruence.
Qed.

(** X15. The table only grows, and only by reserves: no sequence of
    operations removes a row, and the number of rows added is at most the
    number of reserve requests in the sequence. *)
Theorem table_only_grows (ops : list op) (w : world) :
  (List.length (credit_transactions w)
   ≤ List.length (credit_transactions (run ops w)))%nat ∧
  (List.length (credit_transactions (run ops w))
   ≤ List.length (credit_transactions w) + List.length (List.filter is_reserve ops))%nat.
Proof.
  revert w. induction ops as [|o ops IH]; intros w; simpl; [lia |].
  destruct (IH (step o w).2) as [IH1 IH2].
  destruct (step_length o w) as [Hlen | [Hres Hlen]].
  - destruct (is_reserve o); simpl; lia.
  - rewrite Hres. simpl. lia.
Qed.

(** X16. No operation creates, removes or renames an account: after any
    sequence of operations the profiles are those of the start, each with
    the e-mail address it had. *)
Theorem accounts_fixed (ops : list op) (w : world) :
  dom (profiles (run ops w)) = dom (profiles w) ∧
  ∀ u, email <$> profiles (run ops w) !! u = email <$> profiles w !! u.
Proof.
  assert (∀ u, email <$> profiles (run ops w) !! u = email <$> profiles w !! u) as He.
  { revert w. induction ops as [|o ops IH]; intros w u; simpl; [done |].
    by rewrite IH, step_emails. }
  split; [| done]. apply set_eq. intros u. rewrite !elem_of_dom.
  specialize (He u).
  destruct (profiles (run ops w) !! u), (profiles w !! u); simpl in He;
    split; intros [? ?]; simplify_eq; eauto.
Qed.

(** X17. The time stamps follow the state. If in every row of the table a
    pending row has no completion, cancellation or order data, a completed
    row has its completion time and order id and no cancellation time, and a
    cancelled row has its cancellation time and no completion or order data,
    then the same holds after any sequence of operations; it holds of every
    table grown from the empty one. *)
Theorem rows_stay_consistent (ops : list op) (w : world) :
  Forall row_consistent (credit_transactions w) →
  Forall row_consistent (credit_transactions (run ops w)).
Proof.
  revert w. induction ops as [|o ops IH]; intros w Hall; simpl; [done |].
  apply IH. by apply step_consistent.
Qed.

(** X18. Operations other than the sweep touch at most one existing row:
    when a reserve, a settlement or a cancellation leaves two rows of the
    table different from what they were, the two are the same row. *)
Theorem at_most_one_row_touched
  (o : op) (w : world) (i j : nat) (ti tj : transaction) :
  is_sweep o = false →
  credit_transactions w !! i = Some ti → credit_transactions w !! j = Some tj →
  credit_transactions (step o w).2 !! i ≠ Some ti →
  credit_transactions (step o w).2 !! j ≠ Some tj →
  i = j.
Proof.
  intros Hns Hi Hj. destruct o as [e req | now req | e req | now]; simpl in *.
  - destruct (apply_credits_store e req w) as (_ & extra & -> & _).
    intros Hch. by rewrite (lookup_app_l_Some _ _ _ _ Hi) in Hch.
  - destruct (order_webhook_store now req w) as [-> | (k & t & _ & _ & -> & _)];
      [done |].
    intros Hci Hcj.
    destruct (decide (i = k)) as [-> | Hik];
      [| by rewrite list_lookup_alter_ne in Hci].
    destruct (decide (j = k)) as [-> | Hjk];
      [done | by rewrite list_lookup_alter_ne in Hcj].
  - destruct (cancel_credits_store e req w) as (_ & [-> | (k & t & _ & _ & ->)]);
      [done |].
    intros Hci Hcj.
    destruct (decide (i = k)) as [-> | Hik];
      [| by rewrite list_lookup_alter_ne in Hci].
    destruct (decide (j = k)) as [-> | Hjk];
      [done | by rewrite list_lookup_alter_ne in Hcj].
  - done.
Qed.

End Runs.

(** X19. After a sweep every reservation that is still pending was created
    at or after the cut-off of the sweep, the instant at which the local
    clock of the server read 24 hours less: that is within the last 24 hours
    when the clock was not changed in between, and within the last 24 hours
    plus [d] when it was set back by [d]. The sweep touches neither a
    balance nor Shopify: the price rules and discount codes of the
    reservations it released are all still there. *)
Theorem sweep_postcondition `{Platform} (now : Z) (w : world) :
  (∀ i t, credit_transactions (cleanup_pending now w).2 !! i = Some t →
          status t = pending → twentyFourHoursAgo now ≤ created_at t) ∧
  (∀ d, twentyFourHoursAgo now = now - 24 * hour - d →
        ∀ i t, credit_transactions (cleanup_pending now w).2 !! i = Some t →
               status t = pending → now - 24 * hour - d ≤ created_at t) ∧
  shopify (cleanup_pending now w).2 = shopify w ∧
  profiles (cleanup_pending now w).2 = profiles w.
Proof.
  destruct (cleanup_pending_store now w) as (Hp & Hs & _).
  assert (∀ i t, credit_transactions (cleanup_pending now w).2 !! i = Some t →
                 status t = pending → twentyFourHoursAgo now ≤ created_at t) as Hall.
  { intros i t Hi Hpend.
    rewrite cleanup_pending_rows, list_lookup_fmap in Hi.
    destruct (credit_transactions w !! i) as [u|]; simpl in Hi; [| done].
    simplify_eq. destruct (is_old_pending _ u) eqn:Hold; [done |].
    unfold is_old_pending, is_pending in Hold.
    rewrite bool_decide_eq_true_2 in Hold by done. simpl in Hold.
    apply Z.ltb_ge in Hold. lia. }
  split; [done |]. split; [| done].
  intros d Hcut i t Hi Hpend. rewrite <- Hcut. by apply (Hall i t).
Qed.

Lemma row_identity_preserved_witness :
  let ops := [ Settle 3000 (demo_event 7 "CREDIT-1000-aa"); Sweep (30 * hour) ] in
  let t := reserved_row (demo_env 2000 "bb") bob 500 "CREDIT-2000-bb" 2 in
  ∃ t', credit_transactions (@run demo_platform ops two_reserved) !! 1%nat = Some t' ∧
        same_identity t t'.
Proof.
  intros ops t.
  apply (@row_identity_preserved demo_platform ops two_reserved 1%nat t).
  vm_compute. reflexivity.
Defined.

Lemma rows_stay_consistent_witness :
  Forall row_consistent
    (credit_transactions (@run demo_platform overspend_ops (world_of_balance 5000))).
Proof.
  apply (@rows_stay_consistent demo_platform overspend_ops (world_of_balance 5000)).
  simpl. apply Forall_nil_2.
Defined.

Lemma at_most_one_row_touched_witness :
  let o := Settle 3000 (demo_event 7 "CREDIT-2000-bb") in
  credit_transactions (@step demo_platform o two_reserved).2 !! 1%nat
  ≠ credit_transactions two_reserved !! 1%nat ∧ 1%nat = 1%nat.
Proof.
  intros o.
  assert (credit_transactions (@step demo_platform o two_reserved).2 !! 1%nat
          ≠ Some (reserved_row (demo_env 2000 "bb") bob 500 "CREDIT-2000-bb" 2))
    as Hch by (vm_compute; discriminate).
  split; [exact Hch |].
  apply (@at_most_one_row_touched demo_platform o two_reserved 1%nat 1%nat
           (reserved_row (demo_env 2000 "bb") bob 500 "CREDIT-2000-bb" 2)
           (reserved_row (demo_env 2000 "bb") bob 500 "CREDIT-2000-bb" 2)).
  - reflexivity.
  - vm_compute. reflexivity.
  - vm_compute. reflexivity.
  - exact Hch.
  - exact Hch.
Defined.

Lemma sweep_postcondition_witness :
  let now := clock_change + 12 * hour in
  let t := reserved_row (demo_env (clock_change - 12 * hour - hour / 2) "aa")
             alice 1000 "CREDIT-315000000-aa" 1 in
  credit_transactions (@cleanup_pending dst_platform now dst_world).2 !! 0%nat = Some t ∧
  now - 24 * hour - hour ≤ created_at t.
Proof.
  intros now t.
  assert (credit_transactions (@cleanup_pending dst_platform now dst_world).2 !! 0%nat
          = Some t) as Hrow by (vm_compute; reflexivity).
  split; [exact Hrow |].
  apply (proj1 (proj2 (@sweep_postcondition dst_platform now dst_world)) hour
           ltac:(vm_compute; reflexivity) 0%nat t Hrow).
  reflexivity.
Defined.

(** ** The standalone handlers *)

Section Standalone.
Context `{Platform}.



(** X22. The standalone apply never overdraws: whenever it changes the
    balance of an account, that account is the one the request names, the
    amount was at most the old balance, and the new balance is the old one
    minus the amount. *)
Theorem api_apply_never_overdraws
  (e : apply_env) (m : http_method) (req : apply_request) (w : world)
  (u : string) (b b' : Z) :
  GetBalance w u = Some b →
  GetBalance (api_apply_credits e m req w).2 u = Some b' →
  b' ≠ b →
  ∃ amt, creditAmount req = Some amt ∧ userId req = Some u ∧
         amt ≤ b ∧ b' = b - amt.
Proof.
  unfold api_apply_credits, GetBalance.
  repeat case_match; simpl; intros Hb Hb' Hne; simplify_eq;
    try (rewrite Hb in Hb'; simplify_eq; done).
  unfold credit_profile in Hb'.
  match goal with
  | Hp : profiles w !! ?uid = Some ?p |- _ =>
    destruct (decide (uid = u)) as [-> | Hother];
      [rewrite lookup_alter_eq, Hp in Hb'; rewrite Hp in Hb |
       rewrite lookup_alter_ne, Hb in Hb' by done]
  end; simpl in *; simplify_eq.
  match goal with Hlt : (_ <? _) = false |- _ => apply Z.ltb_ge in Hlt end.
  eexists. split; [done |]. split; [done |]. split; [lia | done].
Qed.

End Standalone.

Lemma select_rows_no_pending (Q : transaction → bool) rows :
  (∀ t, t ∈ rows → status t ≠ pending) →
  select_rows (λ t, Q t && is_pending t) rows = [].
Proof.
  intros Hno. apply select_rows_nil. intros t Hin.
  apply andb_false_iff. right. apply bool_decide_eq_false. by apply Hno.
Qed.

Section StandaloneRuns.
Context `{Platform}.

Lemma api_step_no_pending o w :
  (∀ t, t ∈ credit_transactions w → status t ≠ pending) →
  credit_transactions (api_step o w) = credit_transactions w.
Proof.
  intros Hno. destruct o as [e m req | e m req | now m req]; simpl.
  - unfold api_apply_credits. repeat case_match; done.
  - unfold api_cancel_credits.
    destruct m; try done. destruct (_ || _); [done |].
    destruct (cancel_userId req) as [uid|]; [| done].
    destruct (cancel_discountCode req) as [c|]; [| done].
    by rewrite (select_rows_no_pending (λ t, owned_by uid t && has_code c t)).
  - unfold api_order_webhook.
    destruct m; try done. destruct (negb _); [done |].
    destruct (find_credit_discount _) as [c|]; [| done].
    by rewrite (select_rows_no_pending (has_code c)).
Qed.

(** X23. In the standalone variant a deduction is never given back. apply
    records no reservation, so on a table without pending rows every
    sequence of standalone apply, cancel and webhook requests leaves the
    table as it is, and every cancel is refused with 400 or 404 and changes
    nothing, whatever code it names. *)
Theorem api_variant_never_restores (ops : list api_op) (w : world) :
  (∀ t, t ∈ credit_transactions w → status t ≠ pending) →
  credit_transactions (api_run ops w) = credit_transactions w ∧
  ∀ e req,
    (fst (api_cancel_credits e POST req (api_run ops w))
     = mk_response 400 (BError "Missing userId or discountCode") ∨
     NotFound (fst (api_cancel_credits e POST req (api_run ops w)))) ∧
    (api_cancel_credits e POST req (api_run ops w)).2 = api_run ops w.
Proof.
  intros Hno.
  assert (credit_transactions (api_run ops w) = credit_transactions w) as Hrows.
  { revert w Hno. induction ops as [|o ops IH]; intros w Hno; simpl; [done |].
    rewrite IH; [by apply api_step_no_pending |].
    by rewrite api_step_no_pending. }
  split; [done |]. intros e req. unfold api_cancel_credits.
  destruct (_ || _); [by auto |].
  destruct (cancel_userId req) as [uid|]; [| by auto].
  destruct (cancel_discountCode req) as [c|]; [| by auto].
  rewrite Hrows, (select_rows_no_pending (λ t, owned_by uid t && has_code c t)) by done.
  simpl. split; [by right | done].
Qed.

(** X24. The standalone webhook never touches a balance or Shopify. It
    changes the store only for a POST whose signature header equals the MAC
    of the body and whose first credit code has exactly one pending
    reservation: that reservation is marked completed and the answer is 200
    "Credits finalized" with the order id and the id of the row. *)
Theorem api_webhook_only_completes
  (now : Z) (m : http_method) (req : webhook_request) (w : world) :
  profiles (api_order_webhook now m req w).2 = profiles w ∧
  shopify (api_order_webhook now m req w).2 = shopify w ∧
  ((api_order_webhook now m req w).2 ≠ w →
   m = POST ∧
   hmac_header req = Some (compute_hash (order_body req)) ∧
   ∃ c i t,
     find_credit_discount (order_body req) = Some c ∧
     only_match (λ t, has_code c t && is_pending t) (credit_transactions w) i t ∧
     credit_transactions (api_order_webhook now m req w).2
     = alter (complete_row now (order_body req)) i (credit_transactions w) ∧
     fst (api_order_webhook now m req w)
     = mk_api_webhook_response 200
         (WFinalized "Credits finalized" (o_id (order_body req)) i)).
Proof.
  unfold api_order_webhook. destruct m; try done.
  destruct (verifyWebhook _ _) eqn:Hv; simpl; [| done].
  apply bool_decide_eq_true in Hv.
  destruct (find_credit_discount (order_body req)) as [c|]; [| done].
  destruct (single _) as [[i t]|] eqn:Hs; [| done].
  simpl. split; [done |]. split; [done |]. intros _.
  split; [done |]. split; [done |]. exists c, i, t.
  split; [done |]. split; [by apply only_match_single | done].
Qed.


End StandaloneRuns.



Lemma api_apply_never_overdraws_witness :
  ∃ amt, creditAmount (api_reserve 5000) = Some amt ∧
         userId (api_reserve 5000) = Some alice ∧
         amt ≤ 5000 ∧ 0 = 5000 - amt.
Proof.
  apply (api_apply_never_overdraws (demo_env 1000 "aa") POST (api_reserve 5000)
           (world_of_balance 5000) alice 5000 0).
  - vm_compute. reflexivity.
  - vm_compute. reflexivity.
  - lia.
Defined.

Lemma api_variant_never_restores_witness :
  credit_transactions (@api_run demo_platform api_ops (world_of_balance 5000)) = [] ∧
  ∀ e req,
    (fst (api_cancel_credits e POST req
            (@api_run demo_platform api_ops (world_of_balance 5000)))
     = mk_response 400 (BError "Missing userId or discountCode") ∨
     NotFound (fst (api_cancel_credits e POST req
                      (@api_run demo_platform api_ops (world_of_balance 5000))))) ∧
    (api_cancel_credits e POST req
       (@api_run demo_platform api_ops (world_of_balance 5000))).2
    = @api_run demo_platform api_ops (world_of_balance 5000).
Proof.
  apply (@api_variant_never_restores demo_platform api_ops (world_of_balance 5000)).
  intros t Hin. inversion Hin.
Defined.

Lemma api_webhook_only_completes_witness :
  let ev := demo_event 7 "CREDIT-1000-aa" in
  let r := @api_order_webhook demo_platform 2000 POST ev reserved_world in
  profiles r.2 = profiles reserved_world ∧
  fst r = mk_api_webhook_response 200 (WFinalized "Credits finalized" 7 0) ∧
  status_at r.2 0 = Some completed.
Proof.
  intros ev r.
  destruct (@api_webhook_only_completes demo_platform 2000 POST ev reserved_world)
    as (Hp & _ & Hch).
  split; [exact Hp |].
  destruct Hch as (_ & _ & c & i & t & _ & Hm & Hrows & Hr).
  { intros Heq. apply (f_equal credit_transactions) in Heq.
    vm_compute in Heq. discriminate. }
  split; vm_compute; reflexivity.
Defined.


Lemma apply_credits_missing_fields_witness :
  fst (apply_credits (demo_env 1000 "aa") (demo_reserve 0) (world_of_balance 5000))
  = mk_response 400 (BError "Missing required fields: creditAmount, userId, cartItems") ∧
  (apply_credits (demo_env 1000 "aa") (demo_reserve 0) (world_of_balance 5000)).2
  = world_of_balance 5000.
Proof.
  destruct (apply_credits_missing_fields (demo_env 1000 "aa") (demo_reserve 0)
              (world_of_balance 5000)) as [[_ Hback] Hsame].
  assert (fst (apply_credits (demo_env 1000 "aa") (demo_reserve 0)
                 (world_of_balance 5000))
          = mk_response 400
              (BError "Missing required fields: creditAmount, userId, cartItems"))
    as Hr.
  { apply Hback. right. left. reflexivity. }
  split; [exact Hr | exact (Hsame Hr)].
Defined.

Lemma apply_credits_outcome_witness :
  let r := apply_credits (demo_env 2000 "bb") (demo_reserve 3000) reserved_world in
  ∃ amt uid,
    creditAmount (demo_reserve 3000) = Some amt ∧
    userId (demo_reserve 3000) = Some uid ∧
    (fits_decimal_10_2 amt = true →
     ∃ t, credit_transactions r.2 = (credit_transactions reserved_world ++ [t])%list ∧
          status t = pending ∧ amount t = amt ∧ user_id t = uid ∧
          discount_code t = Some (make_discount_code (demo_env 2000 "bb"))) ∧
    (fits_decimal_10_2 amt = false →
     credit_transactions r.2 = credit_transactions reserved_world).
Proof.
  apply (proj1 (proj2 (apply_credits_outcome (demo_env 2000 "bb") (demo_reserve 3000)
                         reserved_world))).
  vm_compute. reflexivity.
Defined.

(** ** Overlapping requests *)

Lemma credit_profile_insert uid b (ps : gmap string profile) p :
  ps !! uid = Some p →
  credit_profile uid b ps = <[uid := {| email := email p; credits := b |}]> ps.
Proof.
  intros Hp. apply map_eq. intros k. unfold credit_profile.
  destruct (decide (k = uid)) as [-> | Hne].
  - by rewrite lookup_alter_eq, lookup_insert_eq, Hp.
  - by rewrite lookup_alter_ne, lookup_insert_ne.
Qed.

Section Overlap.
Context `{Platform}.

(** A request that no other request interrupts goes through its awaits to
    the answer and the store of the handler taken as one function. *)
Lemma finish_webhook now req w :
  finish 4 (WebhookReceived now req) w
  = (Responded (fst (order_webhook now req w)), (order_webhook now req w).2).
Proof.
  unfold order_webhook. simpl.
  destruct (negb _); [done |].
  destruct (find_credit_discount _) as [c|]; [| done].
  destruct (single _) as [[i t]|]; [| done]. simpl.
  unfold debit_profile.
  destruct (profiles w !! user_id t) as [p|] eqn:Hp; simpl; [| done].
  by rewrite (credit_profile_insert _ _ _ p).
Qed.

Lemma finish_cancel e req w :
  finish 3 (CancelReceived e req) w
  = (Responded (fst (cancel_credits e req w)), (cancel_credits e req w).2).
Proof.
  unfold cancel_credits. simpl.
  destruct (_ || _); [done |].
  destruct (cancel_userId req) as [uid|]; [| done].
  destruct (cancel_discountCode req) as [c|]; [| done].
  by destruct (single _) as [[i t]|].
Qed.

(** C2 (what the code does). When a cancellation and a settlement of the
    same pending reservation overlap, the reservation changes state twice.
    The webhook looks the reservation up while it is pending; cancel-credits
    then runs from its lookup to its end and leaves the reservation
    cancelled; the webhook goes on with the row it holds, debits the account
    and, updating by id, turns the cancelled reservation into a completed
    one. *)
Theorem overlapping_cancel_and_settle
  (e : cancel_env) (creq : cancel_request) (now : Z) (ev : webhook_request)
  (w : world) (uid c : string) (i : nat) (t : transaction) (p : profile) :
  cancel_userId creq = Some uid → cancel_discountCode creq = Some c →
  uid ≠ "" → c ≠ "" →
  only_match (λ t, has_code c t && is_pending t) (credit_transactions w) i t →
  user_id t = uid →
  profiles w !! uid = Some p →
  hmac_header ev = Some (compute_hash (order_body ev)) →
  find_credit_discount (order_body ev) = Some c →
  let pool := [WebhookReceived now ev; CancelReceived e creq] in
  let s1 := interleave [0; 1; 1; 1]%nat pool w in
  let s2 := interleave [0; 0; 0]%nat s1.1 s1.2 in
  status_at w i = Some pending ∧
  s1.1 = [WebhookFound now ev i t;
          Responded (cancel_failed "restoredBalance is not defined")] ∧
  status_at s1.2 i = Some cancelled ∧
  GetBalance s1.2 uid = Some (credits p) ∧
  s2.1 = [Responded (mk_response 200
                       (BFinalized "Credits finalized and deducted"
                          (o_id (order_body ev))));
          Responded (cancel_failed "restoredBalance is not defined")] ∧
  status_at s2.2 i = Some completed ∧
  GetBalance s2.2 uid = Some (credits p - amount t).
Proof.
  intros Hu Hc Huid Hcode Hm Hown Hp Hmac Hfind pool s1 s2.
  pose proof (only_match_owned uid c _ i t Hm Hown) as Hm3.
  pose proof Hm as (Hi & HP & _).
  apply andb_true_iff in HP as [_ Hpend]. apply is_pending_true in Hpend.
  apply single_only_match in Hm, Hm3.
  apply String.eqb_neq in Huid, Hcode.
  assert (s1 = ([WebhookFound now ev i t;
                 Responded (cancel_failed "restoredBalance is not defined")],
                {| profiles := profiles w;
                   credit_transactions :=
                     alter (cancel_row (cancel_now e)) i (credit_transactions w);
                   shopify := cleanup_price_rule (delete_fetch e)
                                (cancel_priceRuleId creq) (shopify w) |})) as E1.
  { unfold s1, pool. simpl.
    rewrite Hmac, bool_decide_eq_true_2 by done. simpl.
    rewrite Hfind, Hm. simpl.
    rewrite Hu, Hc. simpl. rewrite Huid, Hcode. simpl.
    rewrite Hm3. simpl. done. }
  assert (s2 = ([Responded (mk_response 200
                              (BFinalized "Credits finalized and deducted"
                                 (o_id (order_body ev))));
                 Responded (cancel_failed "restoredBalance is not defined")],
                {| profiles := credit_profile uid (credits p - amount t) (profiles w);
                   credit_transactions :=
                     alter (complete_row now (order_body ev)) i
                       (alter (cancel_row (cancel_now e)) i (credit_transactions w));
                   shopify := cleanup_price_rule (delete_fetch e)
                                (cancel_priceRuleId creq) (shopify w) |})) as E2.
  { unfold s2. rewrite E1. simpl. rewrite Hown, Hp. simpl. done. }
  rewrite E1, E2. unfold status_at, GetBalance, credit_profile. simpl.
  rewrite !list_lookup_alter_eq, Hi, Hp, lookup_alter_eq, Hp. simpl.
  rewrite Hpend. done.
Qed.

End Overlap.

Lemma overlapping_cancel_and_settle_witness :
  let pool := [ WebhookReceived 2000 (demo_event 7 "CREDIT-1000-aa");
                CancelReceived demo_cancel_env
                  (demo_cancel "CREDIT-1000-aa" (Some 1%N)) ] in
  let s1 := @interleave demo_platform [0; 1; 1; 1]%nat pool reserved_world in
  let s2 := @interleave demo_platform [0; 0; 0]%nat s1.1 s1.2 in
  status_at reserved_world 0 = Some pending ∧
  status_at s1.2 0 = Some cancelled ∧
  GetBalance s1.2 alice = Some 5000 ∧
  status_at s2.2 0 = Some completed ∧
  GetBalance s2.2 alice = Some (5000 - 2500).
Proof.
  intros pool s1 s2.
  destruct (@overlapping_cancel_and_settle demo_platform demo_cancel_env
              (demo_cancel "CREDIT-1000-aa" (Some 1%N)) 2000
              (demo_event 7 "CREDIT-1000-aa") reserved_world alice "CREDIT-1000-aa"
              0%nat (reserved_row (demo_env 1000 "aa") alice 2500 "CREDIT-1000-aa" 1)
              {| email := "alice@example.com"; credits := 5000 |})
    as (H0 & _ & H1 & H2 & _ & H3 & H4).
  - reflexivity.
  - reflexivity.
  - discriminate.
  - discriminate.
  - apply only_match_single. vm_compute. reflexivity.
  - reflexivity.
  - vm_compute. reflexivity.
  - reflexivity.
  - vm_compute. reflexivity.
  - split; [exact H0 |]. split; [exact H1 |]. split; [exact H2 |].
    split; [exact H3 | exact H4].
Defined.
